(** * DrmDevice: the display-device manager of drmfb-composer

    A shallow embedding of [src/DrmDevice.cpp] and the properties of its
    scan-out engine reservation, its initialisation and its
    primary-display protocol. *)

From Stdlib Require Import ZArith NArith List Lia Bool String Permutation.
From stdpp Require Import gmap list fin_maps.

Local Open Scope Z_scope.

(** ** Machine integers

    [unsigned] and [int] are 32 bits wide on every target of the composer.
    A value of either type is kept as the mathematical integer it denotes;
    the two conversions below are the wrap-around of C++. *)

Module Int32.

Definition width : Z := 32.
Definition modulus : Z := 2 ^ width.
Definition half_modulus : Z := 2 ^ (width - 1).

(** Conversion to [unsigned]: reduction modulo 2^32. *)
Definition to_unsigned (z : Z) : Z := z mod modulus.

(** Conversion to [int]: the two's complement reading of the low 32 bits. *)
Definition to_int (z : Z) : Z :=
  let u := z mod modulus in
  if u <? half_modulus then u else u - modulus.

(** [1 << pipe], of type [int] since the left operand is the literal [1].
    C++ leaves the shift undefined once [pipe] reaches the width, and the
    source does not guard it.  The x86 targets of the composer shift by
    the low five bits of the count, and so does this definition: a count
    of 32 or more acts as the count modulo 32. *)
Definition shl1 (pipe : N) : Z :=
  to_int (Z.shiftl 1 (Z.of_N pipe mod width)).

(** [a & b], [a | b] with an [unsigned] left and an [int] right operand:
    the usual arithmetic conversions turn the right one into [unsigned]. *)
Definition and_u (a b : Z) : Z := Z.land (to_unsigned a) (to_unsigned b).
Definition or_u (a b : Z) : Z := Z.lor (to_unsigned a) (to_unsigned b).

(** [~x] on an [int]. *)
Definition not_int (x : Z) : Z := to_int (Z.lnot x).

(** Number of bits set in a 32-bit value. *)
Definition popcount (m : Z) : nat :=
  List.length (List.filter (fun i => Z.testbit m (Z.of_nat i)) (seq 0 32)).

End Int32.

(** ** The kernel mode-setting interface (libdrm) *)

(** The part of [drmModeRes] that the manager reads: [crtcs] with
    [count_crtcs] and [connectors] with [count_connectors], each array
    together with its count as a list. *)
Record drmModeRes := {
  crtcs : list Z;
  connectors : list Z
}.

(** What the kernel answers at one moment: the resource query on a file
    descriptor ([None] is the null pointer of a failed query) and, for each
    connector, whether something is attached and whether the connector type
    is an internal panel. *)
Record Kernel := {
  drmModeGetResources : Z -> option drmModeRes;
  connector_connected : Z -> bool;
  connector_internal : Z -> bool
}.

(** ** The output entity *)

Module DrmDisplay.

(** Modelled from the spec: the output entity (class [DrmDisplay], whose
    source file is not part of [src/]).  It "exposes connection state, an
    internal vs external classification, a stable identifier, and
    operations to refresh its state and to announce itself".  A call of
    [report()] is an event for the composition callback: the manager's
    functions below return the list of entities they called it on. *)
Record t := {
  id : Z;
  connected : bool;
  internal : bool
}.

(** Modelled from the spec: the constructor [DrmDisplay(device, connector)],
    "constructible from (device reference, connector identifier)"; the
    entity keeps the connector identifier as its stable identifier and
    knows nothing about the connection before its first refresh. *)
Definition make (connector : Z) : t :=
  {| id := connector; connected := false; internal := false |}.

(** Modelled from the spec: [DrmDisplay::update()], the entity's "own
    refresh operation (re-query connection/mode state from the kernel
    subsystem)"; the identifier is stable. *)
Definition update (k : Kernel) (d : t) : t :=
  {| id := id d;
     connected := connector_connected k (id d);
     internal := connector_internal k (id d) |}.

End DrmDisplay.

(** ** The device manager *)

Module DrmDevice.

(** A [DrmCallback*] that is not null. *)
Definition DrmCallback := positive.

(** Modelled from the spec: the member declarations of [DrmDevice.h],
    which is not part of [src/].  The in-use bitmask [mUsedCrtcs] is an
    [unsigned] (the width of the [int] mask that [reserveCrtc] ors into
    it); the primary marker is a connector identifier with 0 for "none
    designated"; [mDisplays] is the associative container from connector
    identifier to the owned entity, iterated in the order of
    [map_to_list]; [mHotplugThread] records whether the monitor runs. *)
Record t := {
  mFd : Z;
  mCrtcs : list Z;
  mUsedCrtcs : Z;
  mDisplays : gmap Z DrmDisplay.t;
  mPrimaryDisplay : Z;
  mCallback : option DrmCallback;
  mHotplugThread : bool
}.

Definition set_mCrtcs (v : list Z) (d : t) : t :=
  {| mFd := mFd d; mCrtcs := v; mUsedCrtcs := mUsedCrtcs d;
     mDisplays := mDisplays d; mPrimaryDisplay := mPrimaryDisplay d;
     mCallback := mCallback d; mHotplugThread := mHotplugThread d |}.

Definition set_mUsedCrtcs (v : Z) (d : t) : t :=
  {| mFd := mFd d; mCrtcs := mCrtcs d; mUsedCrtcs := v;
     mDisplays := mDisplays d; mPrimaryDisplay := mPrimaryDisplay d;
     mCallback := mCallback d; mHotplugThread := mHotplugThread d |}.

Definition set_mDisplays (v : gmap Z DrmDisplay.t) (d : t) : t :=
  {| mFd := mFd d; mCrtcs := mCrtcs d; mUsedCrtcs := mUsedCrtcs d;
     mDisplays := v; mPrimaryDisplay := mPrimaryDisplay d;
     mCallback := mCallback d; mHotplugThread := mHotplugThread d |}.

Definition set_mPrimaryDisplay (v : Z) (d : t) : t :=
  {| mFd := mFd d; mCrtcs := mCrtcs d; mUsedCrtcs := mUsedCrtcs d;
     mDisplays := mDisplays d; mPrimaryDisplay := v;
     mCallback := mCallback d; mHotplugThread := mHotplugThread d |}.

Definition set_mCallback (v : option DrmCallback) (d : t) : t :=
  {| mFd := mFd d; mCrtcs := mCrtcs d; mUsedCrtcs := mUsedCrtcs d;
     mDisplays := mDisplays d; mPrimaryDisplay := mPrimaryDisplay d;
     mCallback := v; mHotplugThread := mHotplugThread d |}.

Definition set_mHotplugThread (v : bool) (d : t) : t :=
  {| mFd := mFd d; mCrtcs := mCrtcs d; mUsedCrtcs := mUsedCrtcs d;
     mDisplays := mDisplays d; mPrimaryDisplay := mPrimaryDisplay d;
     mCallback := mCallback d; mHotplugThread := v |}.

(** Modelled from the spec: the default member initialisers of
    [DrmDevice.h] (no engine in use, no primary designated, no callback),
    as [DrmDevice::DrmDevice(int fd)] finds them; the constructor itself
    stores the descriptor, and the vector and the map start empty. *)
Definition make (fd : Z) : t :=
  {| mFd := fd; mCrtcs := []; mUsedCrtcs := 0; mDisplays := ∅;
     mPrimaryDisplay := 0; mCallback := None; mHotplugThread := false |}.

(** [DrmDevice::getConnectedDisplay]: the result is the entity the returned
    pointer refers to, [None] for [nullptr]; the state is threaded through
    as for every other member function. *)
Definition getConnectedDisplay (connector : Z) (d : t)
  : option DrmDisplay.t * t :=
  match mDisplays d !! connector with
  | None => (None, d)
  | Some display =>
      (if DrmDisplay.connected display then Some display else None, d)
  end.

(** [DrmDevice::reserveCrtc]. *)
Definition reserveCrtc (pipe : N) (d : t) : Z * t :=
  let mask := Int32.shl1 pipe in
  if (Z.of_N pipe <? Z.of_nat (List.length (mCrtcs d)))
     && (Int32.and_u (mUsedCrtcs d) mask =? 0)
  then (nth (N.to_nat pipe) (mCrtcs d) 0,
        set_mUsedCrtcs (Int32.or_u (mUsedCrtcs d) mask) d)
  else (0, d).

(** [DrmDevice::freeCrtc]. *)
Definition freeCrtc (pipe : N) (d : t) : t :=
  if Z.of_N pipe <? Z.of_nat (List.length (mCrtcs d))
  then set_mUsedCrtcs
         (Int32.and_u (mUsedCrtcs d) (Int32.not_int (Int32.shl1 pipe))) d
  else d.

(** [mDisplays.insert({key, value})]: the standard associative containers
    insert only when no element with an equal key is present. *)
Definition map_insert (key : Z) (value : DrmDisplay.t)
    (m : gmap Z DrmDisplay.t) : gmap Z DrmDisplay.t :=
  match m !! key with
  | Some _ => m
  | None => <[key := value]> m
  end.

(** The loop of [initialize] over [res->connectors]. *)
Fixpoint create_displays (cs : list Z) (m : gmap Z DrmDisplay.t)
  : gmap Z DrmDisplay.t :=
  match cs with
  | [] => m
  | c :: rest => create_displays rest (map_insert c (DrmDisplay.make c) m)
  end.

(** [DrmDevice::initialize]. *)
Definition initialize (k : Kernel) (d : t) : bool * t :=
  if mFd d <? 0 then (false, d)
  else
    match drmModeGetResources k (mFd d) with
    | None => (false, d)
    | Some res =>
        let d := set_mCrtcs (crtcs res) d in
        let d := set_mDisplays (create_displays (connectors res) (mDisplays d)) d in
        (true, d)
    end.

(** [DrmDevice::update]. *)
Definition update (k : Kernel) (d : t) : t :=
  set_mDisplays (DrmDisplay.update k <$> mDisplays d) d.

(** Iterators over [mDisplays] are positions in the iteration order;
    [end()] is the length. *)
Definition iterator := nat.

(** [std::find_if]: the position of the first element that satisfies the
    predicate, counted from [i], or the end. *)
Fixpoint find_if {A} (p : A -> bool) (i : iterator) (l : list A) : iterator :=
  match l with
  | [] => i
  | x :: rest => if p x then i else find_if p (S i) rest
  end.

(** The loop of the second branch of [enable], from position [i] on: the
    first connected entity that is not at [primary], if there is one. *)
Fixpoint first_connected (primary : iterator) (i : iterator)
    (l : list (Z * DrmDisplay.t)) : option DrmDisplay.t :=
  match l with
  | [] => None
  | (_, display) :: rest =>
      if Nat.eqb i primary then first_connected primary (S i) rest
      else if DrmDisplay.connected display then Some display
      else first_connected primary (S i) rest
  end.

(** [DrmDevice::enable].  The second component lists the entities whose
    [report()] was called, in call order. *)
Definition enable (k : Kernel) (callback : option DrmCallback) (d : t)
  : t * list DrmDisplay.t :=
  let d := update k d in
  let d := set_mCallback callback d in
  let displays := map_to_list (mDisplays d) in
  let primary :=
    find_if (fun pair : Z * DrmDisplay.t =>
               DrmDisplay.connected pair.2 && DrmDisplay.internal pair.2)
            0%nat displays in
  let '(d, reports) :=
    if negb (Nat.eqb primary (List.length displays)) then
      match nth_error displays primary with
      | Some (_, display) =>
          (set_mPrimaryDisplay (DrmDisplay.id display) d, [display])
      | None => (d, [])
      end
    else
      match first_connected primary 0%nat displays with
      | Some display =>
          (set_mPrimaryDisplay (DrmDisplay.id display) d, [display])
      | None => (d, [])
      end in
  (set_mHotplugThread true d, reports).

(** The loop of [reportExternal]: every connected entity whose identifier
    differs from the primary marker. *)
Fixpoint report_others (primary : Z) (l : list (Z * DrmDisplay.t))
  : list DrmDisplay.t :=
  match l with
  | [] => []
  | (_, display) :: rest =>
      if negb (DrmDisplay.id display =? primary)
         && DrmDisplay.connected display
      then display :: report_others primary rest
      else report_others primary rest
  end.

(** [DrmDevice::reportExternal]. *)
Definition reportExternal (d : t) : t * list DrmDisplay.t :=
  if mPrimaryDisplay d =? 0 then (d, [])
  else
    (set_mPrimaryDisplay 0 d,
     report_others (mPrimaryDisplay d) (map_to_list (mDisplays d))).

(** A call of one of the two reservation functions. *)
Inductive crtc_call :=
| Reserve (pipe : N)
| Free (pipe : N).

Definition run_call (c : crtc_call) (d : t) : t :=
  match c with
  | Reserve pipe => (reserveCrtc pipe d).2
  | Free pipe => freeCrtc pipe d
  end.

Definition run_calls (cs : list crtc_call) (d : t) : t :=
  fold_left (fun d c => run_call c d) cs d.

(** A call of a member function by the composition service or by the
    hotplug monitor, with what the kernel answers during the call. *)
Inductive call :=
| CallGetConnectedDisplay (connector : Z)
| CallReserveCrtc (pipe : N)
| CallFreeCrtc (pipe : N)
| CallInitialize (k : Kernel)
| CallUpdate (k : Kernel)
| CallEnable (k : Kernel) (callback : option DrmCallback)
| CallReportExternal.

Definition step (c : call) (d : t) : t :=
  match c with
  | CallGetConnectedDisplay connector => (getConnectedDisplay connector d).2
  | CallReserveCrtc pipe => (reserveCrtc pipe d).2
  | CallFreeCrtc pipe => freeCrtc pipe d
  | CallInitialize k => (initialize k d).2
  | CallUpdate k => update k d
  | CallEnable k callback => (enable k callback d).1
  | CallReportExternal => (reportExternal d).1
  end.

Fixpoint run (cs : list call) (d : t) : t :=
  match cs with
  | [] => d
  | c :: rest => run rest (step c d)
  end.

(** Whether some call of the sequence is an [initialize] that returns
    [true]. *)
Fixpoint ever_initialized (cs : list call) (d : t) : bool :=
  match cs with
  | [] => false
  | c :: rest =>
      match c with
      | CallInitialize k => (initialize k d).1
      | _ => false
      end
      || ever_initialized rest (step c d)
  end.

(** [DrmDevice::disable].  The second component lists the entities whose
    [disable()] was called, in call order; what an entity does inside its
    own [disable()] is not part of this function. *)
Definition disable (d : t) : t * list DrmDisplay.t :=
  let d := set_mHotplugThread false d in
  let d := set_mCallback None d in
  (d, (map_to_list (mDisplays d)).*2).

(** What the constructors ask of the operating system: [open(path,
    O_RDWR)], a descriptor or a negative value, and the system property
    store, in which an unset property reads as the empty string. *)
Record Os := {
  open : string -> Z;
  property : string -> string
}.

(** [base::GetProperty(key, default_value)]: the value of the property, or
    the default when the property is empty. *)
Definition GetProperty (os : Os) (key default_value : string) : string :=
  let value := property os key in
  if String.eqb value EmptyString then default_value else value.

(** [DrmDevice::DrmDevice(const std::string& path)]: delegates to the
    descriptor constructor; a failed open is logged and nothing else. *)
Definition make_path (os : Os) (path : string) : t :=
  make (open os path).

(** [DrmDevice::DrmDevice()]. *)
Definition make_default (os : Os) : t :=
  make_path os (GetProperty os "hwc.drm.device" "/dev/dri/card0").

(** The calls of a sequence that are [initialize]. *)
Definition is_initialize (c : call) : bool :=
  match c with
  | CallInitialize _ => true
  | _ => false
  end.

End DrmDevice.

(** ** Sample kernels *)

(** Three engines and three connectors behind descriptor 3; a panel on
    connector 7 and a monitor on connector 12. *)
Definition kernel_panel : Kernel :=
  {| drmModeGetResources := fun fd =>
       if fd =? 3
       then Some {| crtcs := [31; 32; 33]; connectors := [7; 9; 12] |}
       else None;
     connector_connected := fun c => (c =? 7) || (c =? 12);
     connector_internal := fun c => c =? 7 |}.

(** The same board with monitors on connectors 9 and 12 and no panel. *)
Definition kernel_monitors : Kernel :=
  {| drmModeGetResources := fun fd =>
       if fd =? 3
       then Some {| crtcs := [31; 32; 33]; connectors := [7; 9; 12] |}
       else None;
     connector_connected := fun c => (c =? 9) || (c =? 12);
     connector_internal := fun _ => false |}.

(** The same board with nothing attached. *)
Definition kernel_unplugged : Kernel :=
  {| drmModeGetResources := fun fd =>
       if fd =? 3
       then Some {| crtcs := [31; 32; 33]; connectors := [7; 9; 12] |}
       else None;
     connector_connected := fun _ => false;
     connector_internal := fun _ => false |}.

(** A kernel that refuses the resource query. *)
Definition kernel_refusing : Kernel :=
  {| drmModeGetResources := fun _ => None;
     connector_connected := fun _ => false;
     connector_internal := fun _ => false |}.

(** ** Specified properties *)

(** A value of type [unsigned]. *)
Definition is_unsigned (z : Z) : Prop := 0 <= z < Int32.modulus.

(** [reserveCrtc] fails "by returning a sentinel value of 0" with "no side
    effect"; any other outcome is a success. *)
Definition reserve_succeeds (pipe : N) (d : DrmDevice.t) : Prop :=
  DrmDevice.reserveCrtc pipe d <> (0, d).

(** The reservation contract for one pool and one pipe index: success
    exactly on an index inside the pool whose bit is clear; a success sets
    that bit and returns the engine at that position; a failure returns 0
    and changes nothing. *)
Definition reserve_contract (pipe : N) (d : DrmDevice.t) : Prop :=
  let p := Z.of_N pipe in
  let r := DrmDevice.reserveCrtc pipe d in
  (reserve_succeeds pipe d <->
     0 <= p < Z.of_nat (List.length (DrmDevice.mCrtcs d))
     /\ Z.testbit (DrmDevice.mUsedCrtcs d) p = false)
  /\ (reserve_succeeds pipe d ->
        r.1 = nth (N.to_nat pipe) (DrmDevice.mCrtcs d) 0
        /\ r.2 = DrmDevice.set_mUsedCrtcs
                   (Z.setbit (DrmDevice.mUsedCrtcs d) p) d)
  /\ (~ reserve_succeeds pipe d -> r = (0, d)).

(** No engine outside the pool is marked in use. *)
Definition crtcs_in_bounds (d : DrmDevice.t) : Prop :=
  forall q, Z.of_nat (List.length (DrmDevice.mCrtcs d)) <= q ->
            Z.testbit (DrmDevice.mUsedCrtcs d) q = false.

(** Every entity is registered under its own identifier. *)
Definition registry_wf (m : gmap Z DrmDisplay.t) : Prop :=
  map_Forall (fun key display => DrmDisplay.id display = key) m.

(** The reading of [initialize] in which an entity constructed for a
    connector replaces whatever the registry held for that connector. *)
Definition initialize_overwrites (k : Kernel) (d : DrmDevice.t) : Prop :=
  forall res, drmModeGetResources k (DrmDevice.mFd d) = Some res ->
  forall c, c ∈ connectors res ->
    DrmDevice.mDisplays (DrmDevice.initialize k d).2 !! c
    = Some (DrmDisplay.make c).

(** The two tests of the primary selection, on an element of the
    registry. *)
Definition is_primary (e : Z * DrmDisplay.t) : bool :=
  DrmDisplay.connected e.2 && DrmDisplay.internal e.2.

Definition is_connected (e : Z * DrmDisplay.t) : bool :=
  DrmDisplay.connected e.2.

(** ** Bit-level facts about the 32-bit operations *)

Section Bits.

Import Int32.

Lemma modulus_eq : modulus = 2 ^ 32.
Proof. reflexivity. Qed.

Lemma testbit_to_unsigned z i :
  Z.testbit (to_unsigned z) i = (i <? 32) && Z.testbit z i.
Proof.
  unfold to_unsigned. rewrite modulus_eq. apply Z.testbit_mod_pow2. lia.
Qed.

Lemma to_unsigned_range z : is_unsigned (to_unsigned z).
Proof.
  unfold is_unsigned, to_unsigned. apply Z.mod_pos_bound.
  rewrite modulus_eq. lia.
Qed.

Lemma to_unsigned_small z : is_unsigned z -> to_unsigned z = z.
Proof. unfold is_unsigned, to_unsigned. intros H. by apply Z.mod_small. Qed.

Lemma to_unsigned_to_int z : to_unsigned (to_int z) = to_unsigned z.
Proof.
  unfold to_unsigned, to_int. cbv zeta.
  assert (Hm : modulus <> 0) by (rewrite modulus_eq; lia).
  destruct (z mod modulus <? half_modulus).
  - by rewrite Z.mod_mod.
  - replace (z mod modulus - modulus) with (z mod modulus + (-1) * modulus)
      by lia.
    rewrite Z.mod_add by done. by rewrite Z.mod_mod.
Qed.

Lemma testbit_high z i : is_unsigned z -> 32 <= i -> Z.testbit z i = false.
Proof.
  intros Hz Hi. rewrite <- (to_unsigned_small z Hz), testbit_to_unsigned.
  destruct (i <? 32) eqn:E; [lia | done].
Qed.

(** The bits of [1 << pipe] once it meets an [unsigned] operand. *)
Lemma testbit_shl1 pipe i :
  Z.testbit (to_unsigned (shl1 pipe)) i
  = (i <? 32) && (Z.of_N pipe mod 32 =? i).
Proof.
  unfold shl1, width. rewrite to_unsigned_to_int, testbit_to_unsigned.
  rewrite Z.shiftl_1_l, Z.pow2_bits_eqb; [done|].
  apply Z.mod_pos_bound. lia.
Qed.

(** The bits of [~(1 << pipe)] once it meets an [unsigned] operand. *)
Lemma testbit_not_shl1 pipe i :
  0 <= i ->
  Z.testbit (to_unsigned (not_int (shl1 pipe))) i
  = (i <? 32) && negb (Z.of_N pipe mod 32 =? i).
Proof.
  intros Hi. unfold not_int.
  rewrite to_unsigned_to_int, testbit_to_unsigned, Z.lnot_spec by done.
  destruct (i <? 32) eqn:E; [|done]. simpl.
  assert (H := testbit_shl1 pipe i). rewrite testbit_to_unsigned, E in H.
  simpl in H. by rewrite H.
Qed.

Lemma unsigned_of_bits z :
  (forall i, 32 <= i -> Z.testbit z i = false) -> is_unsigned z.
Proof.
  intros H. replace z with (to_unsigned z); [apply to_unsigned_range|].
  apply Z.bits_inj'. intros i Hi. rewrite testbit_to_unsigned.
  destruct (i <? 32) eqn:E; [done|]. simpl. symmetry. apply H. lia.
Qed.

Lemma testbit_and_u a b i :
  Z.testbit (and_u a b) i = (i <? 32) && (Z.testbit a i && Z.testbit b i).
Proof.
  unfold and_u. rewrite Z.land_spec, !testbit_to_unsigned.
  by destruct (i <? 32).
Qed.

Lemma testbit_or_u a b i :
  Z.testbit (or_u a b) i = (i <? 32) && (Z.testbit a i || Z.testbit b i).
Proof.
  unfold or_u. rewrite Z.lor_spec, !testbit_to_unsigned.
  by destruct (i <? 32).
Qed.

Lemma and_u_range a b : is_unsigned (and_u a b).
Proof.
  apply unsigned_of_bits. intros i Hi. rewrite testbit_and_u.
  destruct (i <? 32) eqn:E; [lia | done].
Qed.

Lemma or_u_range a b : is_unsigned (or_u a b).
Proof.
  apply unsigned_of_bits. intros i Hi. rewrite testbit_or_u.
  destruct (i <? 32) eqn:E; [lia | done].
Qed.

(** The test [!(mUsedCrtcs & mask)] of [reserveCrtc]. *)
Lemma and_u_shl1_zero m pipe :
  (and_u m (shl1 pipe) =? 0) = negb (Z.testbit m (Z.of_N pipe mod 32)).
Proof.
  set (p := Z.of_N pipe mod 32).
  assert (Hp : 0 <= p < 32) by (apply Z.mod_pos_bound; lia).
  assert (Hlt : (p <? 32) = true) by (apply Z.ltb_lt; lia).
  assert (Hbits : forall i, Z.testbit (and_u m (shl1 pipe)) i
                            = (i <? 32) && (Z.testbit m i && (p =? i))).
  { intros i. unfold and_u.
    rewrite Z.land_spec, testbit_shl1, testbit_to_unsigned. fold p.
    by destruct (i <? 32). }
  destruct (Z.testbit m p) eqn:E; simpl.
  - apply Z.eqb_neq. intros H0.
    assert (H := Hbits p). rewrite H0, Z.bits_0, Z.eqb_refl, Hlt, E in H.
    done.
  - apply Z.eqb_eq. apply Z.bits_inj'. intros i _. rewrite Hbits, Z.bits_0.
    destruct (p =? i) eqn:Ep.
    + apply Z.eqb_eq in Ep. subst i. rewrite E. by destruct (p <? 32).
    + by rewrite !andb_false_r.
Qed.

Lemma count_narrow pipe : Z.of_N pipe < 32 -> Z.of_N pipe mod 32 = Z.of_N pipe.
Proof. intros H. apply Z.mod_small. lia. Qed.

(** The assignment [mUsedCrtcs |= mask] of [reserveCrtc], for an index
    below the width. *)
Lemma or_u_shl1 m pipe :
  is_unsigned m -> Z.of_N pipe < 32 ->
  or_u m (shl1 pipe) = Z.setbit m (Z.of_N pipe).
Proof.
  intros Hm Hp. apply Z.bits_inj'. intros i Hi.
  unfold or_u. rewrite Z.lor_spec, testbit_shl1, (to_unsigned_small m Hm).
  rewrite count_narrow by done. rewrite Z.setbit_eqb by lia.
  destruct (i <? 32) eqn:E; simpl.
  - apply orb_comm.
  - rewrite orb_false_r.
    destruct (Z.of_N pipe =? i) eqn:Ep; [lia|done].
Qed.

(** The assignment [mUsedCrtcs &= ~(1 << pipe)] of [freeCrtc], for an
    index below the width. *)
Lemma and_u_not_shl1 m pipe :
  is_unsigned m -> Z.of_N pipe < 32 ->
  and_u m (not_int (shl1 pipe)) = Z.clearbit m (Z.of_N pipe).
Proof.
  intros Hm Hp. apply Z.bits_inj'. intros i Hi.
  unfold and_u. rewrite Z.land_spec, testbit_not_shl1 by done.
  rewrite count_narrow by done.
  rewrite (to_unsigned_small m Hm), Z.clearbit_eqb.
  destruct (i <? 32) eqn:E; simpl; [done|].
  rewrite (testbit_high m i) by (done || lia). done.
Qed.

Lemma clearbit_clear m p : Z.testbit m p = false -> Z.clearbit m p = m.
Proof.
  intros H. apply Z.bits_inj'. intros i _. rewrite Z.clearbit_eqb.
  destruct (p =? i) eqn:E; simpl.
  - apply Z.eqb_eq in E. subst i. by rewrite H.
  - apply andb_true_r.
Qed.

End Bits.

(** ** Scan-out engine reservation *)

Section Reservation.

Import DrmDevice.

Lemma set_mUsedCrtcs_same d : set_mUsedCrtcs (mUsedCrtcs d) d = d.
Proof. by destruct d. Qed.

(** Outside the pool nothing is reserved. *)
Lemma reserveCrtc_outside pipe d :
  Z.of_nat (List.length (mCrtcs d)) <= Z.of_N pipe ->
  reserveCrtc pipe d = (0, d).
Proof.
  intros H. unfold reserveCrtc. cbv zeta.
  destruct (Z.of_N pipe <? _) eqn:E; [lia | done].
Qed.

(** Below the width of the mask the function is the textbook bitmap
    allocator. *)
Lemma reserveCrtc_narrow pipe d :
  is_unsigned (mUsedCrtcs d) -> Z.of_N pipe < 32 ->
  reserveCrtc pipe d
  = if (Z.of_N pipe <? Z.of_nat (List.length (mCrtcs d)))
       && negb (Z.testbit (mUsedCrtcs d) (Z.of_N pipe))
    then (nth (N.to_nat pipe) (mCrtcs d) 0,
          set_mUsedCrtcs (Z.setbit (mUsedCrtcs d) (Z.of_N pipe)) d)
    else (0, d).
Proof.
  intros Hm Hp. unfold reserveCrtc. cbv zeta.
  rewrite and_u_shl1_zero, or_u_shl1 by done.
  by rewrite count_narrow.
Qed.

Lemma freeCrtc_eq pipe d :
  is_unsigned (mUsedCrtcs d) -> Z.of_N pipe < 32 ->
  freeCrtc pipe d
  = if Z.of_N pipe <? Z.of_nat (List.length (mCrtcs d))
    then set_mUsedCrtcs (Z.clearbit (mUsedCrtcs d) (Z.of_N pipe)) d
    else d.
Proof. intros Hm Hp. unfold freeCrtc. by rewrite and_u_not_shl1. Qed.

Lemma freeCrtc_outside pipe d :
  Z.of_nat (List.length (mCrtcs d)) <= Z.of_N pipe -> freeCrtc pipe d = d.
Proof.
  intros H. unfold freeCrtc. destruct (Z.of_N pipe <? _) eqn:E; [lia | done].
Qed.

Lemma run_call_mCrtcs c d : mCrtcs (run_call c d) = mCrtcs d.
Proof.
  destruct c as [pipe|pipe]; simpl.
  - unfold reserveCrtc. cbv zeta. by destruct (_ && _).
  - unfold freeCrtc. by destruct (_ <? _).
Qed.

Lemma run_call_in_bounds c d :
  crtcs_in_bounds d -> crtcs_in_bounds (run_call c d).
Proof.
  unfold crtcs_in_bounds. intros Hd q Hq. rewrite run_call_mCrtcs in Hq.
  destruct c as [pipe|pipe]; simpl.
  - unfold reserveCrtc. cbv zeta.
    destruct (Z.of_N pipe <? _) eqn:E; simpl; [|by apply Hd].
    destruct (_ =? 0); simpl; [|by apply Hd].
    rewrite testbit_or_u, (Hd q Hq).
    assert (Hs := testbit_shl1 pipe q). rewrite testbit_to_unsigned in Hs.
    destruct (q <? 32) eqn:Eq; [|done]. simpl in *. rewrite Hs.
    apply Z.ltb_lt in E.
    assert (Z.of_N pipe mod 32 <= Z.of_N pipe) by (apply Z.mod_le; lia).
    apply Z.eqb_neq. lia.
  - unfold freeCrtc. destruct (Z.of_N pipe <? _) eqn:E; simpl; [|by apply Hd].
    rewrite testbit_and_u, (Hd q Hq). by destruct (q <? 32).
Qed.

Lemma run_call_unsigned c d :
  is_unsigned (mUsedCrtcs d) -> is_unsigned (mUsedCrtcs (run_call c d)).
Proof.
  intros Hd. destruct c as [pipe|pipe]; simpl.
  - unfold reserveCrtc. cbv zeta. destruct (_ && _); simpl; [|done].
    apply or_u_range.
  - unfold freeCrtc. destruct (_ <? _); simpl; [|done]. apply and_u_range.
Qed.

Lemma run_calls_cons c cs d :
  run_calls (c :: cs) d = run_calls cs (run_call c d).
Proof. reflexivity. Qed.

Lemma run_calls_invariant cs d :
  crtcs_in_bounds d -> is_unsigned (mUsedCrtcs d) ->
  crtcs_in_bounds (run_calls cs d)
  /\ is_unsigned (mUsedCrtcs (run_calls cs d))
  /\ mCrtcs (run_calls cs d) = mCrtcs d.
Proof.
  revert d. induction cs as [|c cs IH]; intros d Hb Hu; [done|].
  rewrite run_calls_cons. destruct (IH (run_call c d)) as (H1 & H2 & H3).
  - by apply run_call_in_bounds.
  - by apply run_call_unsigned.
  - split; [done | split; [done|]]. by rewrite H3, run_call_mCrtcs.
Qed.

(** A mask whose set bits all lie below [n] has at most [n] of them. *)
Lemma popcount_bounded m n :
  (forall q, Z.of_nat n <= q -> Z.testbit m q = false) ->
  (Int32.popcount m <= n)%nat.
Proof.
  intros H. unfold Int32.popcount.
  etrans; [apply (@List.NoDup_incl_length _ _ (seq 0 n))
          | by rewrite length_seq].
  - apply List.NoDup_filter, List.seq_NoDup.
  - intros i Hi. apply List.filter_In in Hi as [_ Hi].
    apply List.in_seq. split; [lia|]. simpl.
    destruct (Nat.lt_ge_cases i n) as [Hlt|Hge]; [done|].
    rewrite H in Hi by lia. done.
Qed.

(** With engine identifiers that are valid (not 0), a caller sees the
    success of a reservation in the returned value. *)
Lemma reserve_succeeds_sentinel pipe d :
  is_unsigned (mUsedCrtcs d) -> Z.of_N pipe < 32 ->
  nth (N.to_nat pipe) (mCrtcs d) 0 <> 0 ->
  reserve_succeeds pipe d <-> (reserveCrtc pipe d).1 <> 0.
Proof.
  intros Hm Hp Hid. unfold reserve_succeeds.
  rewrite reserveCrtc_narrow by done.
  destruct (_ && _) eqn:E; simpl; split; try done.
  intros _ [= H _]. done.
Qed.

Lemma fresh_mask_in_bounds d : mUsedCrtcs d = 0 -> crtcs_in_bounds d.
Proof. intros H q _. rewrite H. apply Z.bits_0. Qed.

End Reservation.

(** The reservation contract where the shift is defined: for every pool
    and every pipe index that is below the 32-bit width of the in-use mask
    or not inside the pool, hence for every pool of at most 32 engines and
    every pipe index, [reserveCrtc] succeeds if and only if the index is
    inside the pool and its bit is clear; a success sets that bit and
    returns the engine stored at that position, a failure returns 0 and
    leaves pool and mask unchanged. *)
Theorem reserveCrtc_contract (pipe : N) (d : DrmDevice.t) :
  is_unsigned (DrmDevice.mUsedCrtcs d) ->
  Z.of_N pipe < 32
  \/ Z.of_nat (List.length (DrmDevice.mCrtcs d)) <= Z.of_N pipe ->
  reserve_contract pipe d.
Proof.
  intros Hm Hp. unfold reserve_contract, reserve_succeeds. cbv zeta.
  destruct (Z.lt_ge_cases (Z.of_N pipe)
              (Z.of_nat (List.length (DrmDevice.mCrtcs d)))) as [Hin|Hout].
  - destruct Hp as [Hp|Hp]; [|lia].
    rewrite reserveCrtc_narrow by done.
    destruct (Z.of_N pipe <? _) eqn:E; [|lia]. simpl.
    destruct (Z.testbit (DrmDevice.mUsedCrtcs d) (Z.of_N pipe)) eqn:Eb; simpl.
    + split; [|split]; [split | |]; try done.
      intros [_ ?]; done.
    + assert (Hne : forall v,
                (v, DrmDevice.set_mUsedCrtcs
                      (Z.setbit (DrmDevice.mUsedCrtcs d) (Z.of_N pipe)) d)
                <> (0, d)).
      { intros v [= _ H]. apply (f_equal DrmDevice.mUsedCrtcs) in H.
        simpl in H. apply (f_equal (fun m => Z.testbit m (Z.of_N pipe))) in H.
        rewrite Z.setbit_eqb, Z.eqb_refl, Eb in H by lia. done. }
      split; [|split]; [split | |]; try done.
      * intros _. split; [lia|done].
      * intros H. destruct H. apply Hne.
  - rewrite reserveCrtc_outside by done.
    split; [|split]; [split | |]; try done.
    intros [? _]. lia.
Qed.

(** The contract at a pool of four engines, two of them in use. *)
Lemma reserveCrtc_contract_witness :
  reserve_contract 2
    (DrmDevice.set_mUsedCrtcs 3
       (DrmDevice.set_mCrtcs [31; 32; 33; 34] (DrmDevice.make 3))).
Proof.
  apply reserveCrtc_contract.
  - unfold is_unsigned. simpl. rewrite modulus_eq. lia.
  - left. simpl. lia.
Defined.

(** C1: the code breaks the reservation contract on a pool of 33
    engines, where only [pipe < mCrtcs.size()] guards the shift.  Index 32
    is inside the pool and bit 32 of the mask is clear, so the contract
    has [reserveCrtc(32)] succeed and set bit 32.  On the empty mask the
    call returns the engine but marks bit 0, the bit of engine 0; with
    bit 0 in use it returns 0 and refuses.  The contract fails at both
    inputs. *)
Theorem reserveCrtc_wide_pool_defect :
  let d := DrmDevice.set_mCrtcs (repeat 5 33) (DrmDevice.make 3) in
  let d1 := DrmDevice.set_mUsedCrtcs 1 d in
  DrmDevice.reserveCrtc 32 d = (5, d1)
  /\ DrmDevice.reserveCrtc 32 d1 = (0, d1)
  /\ ~ reserve_contract 32 d
  /\ ~ reserve_contract 32 d1.
Proof.
  intros d d1.
  assert (Hr : DrmDevice.reserveCrtc 32 d = (5, d1)) by (vm_compute; done).
  assert (Hr1 : DrmDevice.reserveCrtc 32 d1 = (0, d1)) by (vm_compute; done).
  split; [done|]. split; [done|].
  unfold reserve_contract, reserve_succeeds. cbv zeta. rewrite Hr, Hr1.
  split.
  - intros (_ & H & _). destruct H as [_ H]; [done|].
    apply (f_equal DrmDevice.mUsedCrtcs) in H. vm_compute in H. done.
  - intros ([_ H] & _). apply H; [|done].
    split; [simpl; lia | reflexivity].
Qed.

(** C2: after every sequence of [reserveCrtc] and [freeCrtc] calls on a
    device that starts with no engine in use, the number of set bits of
    the in-use mask does not exceed the pool size, and no bit of an engine
    index outside the pool is set; the pool itself is untouched. *)
Theorem crtc_mask_invariant (cs : list DrmDevice.crtc_call)
    (d : DrmDevice.t) :
  DrmDevice.mUsedCrtcs d = 0 ->
  let d' := DrmDevice.run_calls cs d in
  (Int32.popcount (DrmDevice.mUsedCrtcs d')
     <= List.length (DrmDevice.mCrtcs d'))%nat
  /\ crtcs_in_bounds d'
  /\ is_unsigned (DrmDevice.mUsedCrtcs d')
  /\ DrmDevice.mCrtcs d' = DrmDevice.mCrtcs d.
Proof.
  intros H0 d'.
  destruct (run_calls_invariant cs d) as (Hb & Hu & Hc).
  - by apply fresh_mask_in_bounds.
  - rewrite H0. unfold is_unsigned. rewrite modulus_eq. lia.
  - split; [|done]. by apply popcount_bounded.
Qed.

(** The invariant along a run that reserves inside and outside a pool of
    three engines, reserves twice and frees. *)
Lemma crtc_mask_invariant_witness :
  let d' :=
    DrmDevice.run_calls
      [DrmDevice.Reserve 0; DrmDevice.Reserve 2; DrmDevice.Reserve 2;
       DrmDevice.Reserve 7; DrmDevice.Free 0; DrmDevice.Free 40;
       DrmDevice.Reserve 1]
      (DrmDevice.set_mCrtcs [31; 32; 33] (DrmDevice.make 3)) in
  (Int32.popcount (DrmDevice.mUsedCrtcs d')
     <= List.length (DrmDevice.mCrtcs d'))%nat
  /\ crtcs_in_bounds d'
  /\ is_unsigned (DrmDevice.mUsedCrtcs d')
  /\ DrmDevice.mCrtcs d' = [31; 32; 33].
Proof.
  apply (crtc_mask_invariant
           [DrmDevice.Reserve 0; DrmDevice.Reserve 2; DrmDevice.Reserve 2;
            DrmDevice.Reserve 7; DrmDevice.Free 0; DrmDevice.Free 40;
            DrmDevice.Reserve 1]
           (DrmDevice.set_mCrtcs [31; 32; 33] (DrmDevice.make 3))).
  reflexivity.
Defined.

(** The release contract where the shift is defined: on every pipe index
    that is below the 32-bit width of the in-use mask or not inside the
    pool, [freeCrtc] returns normally; an index inside the pool has its
    bit clear afterwards (and only that bit changes), an index outside the
    pool leaves the device unchanged, and so does an index whose bit is
    already clear. *)
Theorem freeCrtc_contract (pipe : N) (d : DrmDevice.t) :
  is_unsigned (DrmDevice.mUsedCrtcs d) ->
  Z.of_N pipe < 32
  \/ Z.of_nat (List.length (DrmDevice.mCrtcs d)) <= Z.of_N pipe ->
  let p := Z.of_N pipe in
  let d' := DrmDevice.freeCrtc pipe d in
  (p < Z.of_nat (List.length (DrmDevice.mCrtcs d)) ->
     Z.testbit (DrmDevice.mUsedCrtcs d') p = false
     /\ d' = DrmDevice.set_mUsedCrtcs
               (Z.clearbit (DrmDevice.mUsedCrtcs d) p) d)
  /\ (Z.of_nat (List.length (DrmDevice.mCrtcs d)) <= p -> d' = d)
  /\ (Z.testbit (DrmDevice.mUsedCrtcs d) p = false -> d' = d).
Proof.
  intros Hm Hp p d'. subst d'.
  destruct (Z.lt_ge_cases p (Z.of_nat (List.length (DrmDevice.mCrtcs d))))
    as [Hin|Hout].
  - destruct Hp as [Hp|Hp]; [|unfold p in Hin; lia].
    rewrite freeCrtc_eq by done. fold p.
    destruct (p <? _) eqn:E; [|lia].
    split; [|split].
    + intros _. split; [|done]. simpl.
      rewrite Z.clearbit_eqb, Z.eqb_refl. apply andb_false_r.
    + lia.
    + intros Hc. rewrite clearbit_clear by done.
      apply set_mUsedCrtcs_same.
  - rewrite freeCrtc_outside by done. split; [lia | done].
Qed.

(** Freeing engine 1 of a pool of four with engines 0 and 1 in use. *)
Lemma freeCrtc_contract_witness :
  let d := DrmDevice.set_mUsedCrtcs 3
             (DrmDevice.set_mCrtcs [31; 32; 33; 34] (DrmDevice.make 3)) in
  DrmDevice.mUsedCrtcs (DrmDevice.freeCrtc 1 d) = 1
  /\ DrmDevice.freeCrtc 9 d = d
  /\ DrmDevice.freeCrtc 2 d = d.
Proof.
  intros d.
  assert (Hu : is_unsigned (DrmDevice.mUsedCrtcs d)).
  { unfold is_unsigned. simpl. rewrite modulus_eq. lia. }
  destruct (freeCrtc_contract 1 d Hu) as ((_ & H1) & _);
    [left; simpl; lia | simpl; lia |].
  destruct (freeCrtc_contract 9 d Hu) as (_ & H2 & _); [left; simpl; lia|].
  destruct (freeCrtc_contract 2 d Hu) as (_ & _ & H3); [left; simpl; lia|].
  split; [by rewrite H1 | split; [apply H2; simpl; lia | by apply H3]].
Defined.

(** C3: the code breaks the release contract on a pool of 33 engines,
    where only [pipe < mCrtcs.size()] guards the shift.  Bit 32 of the
    mask 1 is clear, so the contract has [freeCrtc(32)] change nothing;
    the call clears bit 0 instead, and engine 0, which is still held, can
    be reserved a second time. *)
Theorem freeCrtc_wide_pool_defect :
  let d := DrmDevice.set_mUsedCrtcs 1
             (DrmDevice.set_mCrtcs (repeat 5 33) (DrmDevice.make 3)) in
  Z.of_N 32 < Z.of_nat (List.length (DrmDevice.mCrtcs d))
  /\ Z.testbit (DrmDevice.mUsedCrtcs d) 32 = false
  /\ DrmDevice.freeCrtc 32 d = DrmDevice.set_mUsedCrtcs 0 d
  /\ DrmDevice.freeCrtc 32 d <> d
  /\ DrmDevice.reserveCrtc 0 d = (0, d)
  /\ (DrmDevice.reserveCrtc 0 (DrmDevice.freeCrtc 32 d)).1 = 5.
Proof.
  intros d.
  assert (Hf : DrmDevice.freeCrtc 32 d = DrmDevice.set_mUsedCrtcs 0 d)
    by (vm_compute; done).
  split; [vm_compute; done|]. split; [reflexivity|]. split; [done|].
  split; [|split; vm_compute; done].
  rewrite Hf. intros H. apply (f_equal DrmDevice.mUsedCrtcs) in H.
  vm_compute in H. done.
Qed.

(** ** Initialisation and the registry *)

Section Registry.

Import DrmDevice.

Lemma map_insert_lookup key value (m : gmap Z DrmDisplay.t) c :
  map_insert key value m !! c
  = match m !! c with
    | Some old => Some old
    | None => if decide (c = key) then Some value else None
    end.
Proof.
  unfold map_insert. destruct (m !! key) eqn:Ek.
  - destruct (m !! c) eqn:Ec; [done|].
    case_decide; [congruence | done].
  - destruct (decide (c = key)) as [->|Hne].
    + by rewrite lookup_insert_eq, Ek.
    + rewrite lookup_insert_ne by done. by destruct (m !! c).
Qed.

(** What the connector loop leaves in the registry: an entry that was
    there stays, a connector without an entry gets a fresh entity. *)
Lemma create_displays_lookup cs (m : gmap Z DrmDisplay.t) c :
  create_displays cs m !! c
  = match m !! c with
    | Some old => Some old
    | None => if decide (c ∈ cs) then Some (DrmDisplay.make c) else None
    end.
Proof.
  revert m. induction cs as [|c0 cs IH]; intros m; simpl.
  - destruct (m !! c); [done|].
    destruct (decide (c ∈ [])) as [H|H]; [by apply elem_of_nil in H | done].
  - rewrite IH, map_insert_lookup. destruct (m !! c); [done|].
    destruct (decide (c = c0)) as [->|Hne].
    + destruct (decide (c0 ∈ c0 :: cs)) as [H|H]; [done|].
      destruct H. apply list_elem_of_here.
    + destruct (decide (c ∈ cs)) as [H|H];
        destruct (decide (c ∈ c0 :: cs)) as [H'|H']; try done.
      * destruct H'. by apply list_elem_of_further.
      * apply elem_of_cons in H' as [?|?]; done.
Qed.

Lemma initialize_cases k d :
  initialize k d
  = if mFd d <? 0 then (false, d)
    else match drmModeGetResources k (mFd d) with
         | None => (false, d)
         | Some res =>
             (true,
              set_mDisplays (create_displays (connectors res) (mDisplays d))
                (set_mCrtcs (crtcs res) d))
         end.
Proof. reflexivity. Qed.

Lemma initialize_true k d d' :
  initialize k d = (true, d') ->
  exists res,
    0 <= mFd d
    /\ drmModeGetResources k (mFd d) = Some res
    /\ d' = set_mDisplays (create_displays (connectors res) (mDisplays d))
              (set_mCrtcs (crtcs res) d).
Proof.
  rewrite initialize_cases. destruct (mFd d <? 0) eqn:E; [done|].
  destruct (drmModeGetResources k (mFd d)) as [res|]; [|done].
  intros [= <-]. exists res. split; [lia | done].
Qed.

(** In an association list without repeated keys a key that occurs,
    occurs once. *)
Lemma count_key_once {A} (l : list (Z * A)) c x :
  NoDup (l.*1) -> (c, x) ∈ l ->
  List.length (List.filter (fun e => e.1 =? c) l) = 1%nat.
Proof.
  induction l as [|[c0 x0] l IH]; intros Hnd Hin; [by inversion Hin|].
  simpl in *. apply NoDup_cons in Hnd as [Hc0 Hnd].
  apply elem_of_cons in Hin as [[= <- <-]|Hin].
  - rewrite Z.eqb_refl. simpl. f_equal.
    assert (Hnone : forall e, e ∈ l -> (e.1 =? c) = false).
    { intros [c1 x1] He. simpl. apply Z.eqb_neq. intros ->.
      apply Hc0. apply list_elem_of_fmap. by exists (c, x1). }
    clear -Hnone. induction l as [|e l IH]; [done|]. simpl.
    rewrite (Hnone e) by apply list_elem_of_here.
    apply IH. intros e' He'. apply Hnone. by apply list_elem_of_further.
  - destruct (c0 =? c) eqn:E.
    + apply Z.eqb_eq in E. subst c0. destruct Hc0.
      apply list_elem_of_fmap. by exists (c, x).
    + by apply IH.
Qed.

Lemma registry_count (m : gmap Z DrmDisplay.t) c x :
  m !! c = Some x ->
  List.length (List.filter (fun e => e.1 =? c) (map_to_list m)) = 1%nat.
Proof.
  intros H. apply (count_key_once _ c x).
  - apply NoDup_fst_map_to_list.
  - by apply elem_of_map_to_list.
Qed.

Lemma registry_wf_empty : registry_wf ∅.
Proof. apply map_Forall_empty. Qed.

Lemma registry_wf_create cs m :
  registry_wf m -> registry_wf (create_displays cs m).
Proof.
  unfold registry_wf. rewrite !map_Forall_lookup. intros Hm c x.
  rewrite create_displays_lookup. destruct (m !! c) eqn:E.
  - intros [= <-]. by apply Hm.
  - case_decide; [|done]. by intros [= <-].
Qed.

Lemma registry_wf_update k d :
  registry_wf (mDisplays d) -> registry_wf (mDisplays (update k d)).
Proof.
  unfold registry_wf. rewrite !map_Forall_lookup. intros Hm c x. simpl.
  rewrite lookup_fmap. destruct (mDisplays d !! c) eqn:E; [|done].
  intros [= <-]. simpl. by apply Hm.
Qed.

End Registry.

(** C4: whenever [initialize] returns [true], the kernel answered the
    resource query, the pool is the returned list of engines in the
    returned order, and for each returned connector the registry holds
    exactly one entry under that connector; on a device whose registry was
    empty the keys are exactly the returned connectors and each entry is
    the entity constructed for its connector. *)
Theorem initialize_populates (k : Kernel) (d : DrmDevice.t) :
  (DrmDevice.initialize k d).1 = true ->
  let d' := (DrmDevice.initialize k d).2 in
  exists res,
    drmModeGetResources k (DrmDevice.mFd d) = Some res
    /\ DrmDevice.mCrtcs d' = crtcs res
    /\ (forall c, c ∈ connectors res ->
          is_Some (DrmDevice.mDisplays d' !! c)
          /\ List.length
               (List.filter (fun e => e.1 =? c)
                  (map_to_list (DrmDevice.mDisplays d'))) = 1%nat)
    /\ (DrmDevice.mDisplays d = ∅ ->
          dom (DrmDevice.mDisplays d') = list_to_set (connectors res)
          /\ forall c, c ∈ connectors res ->
               DrmDevice.mDisplays d' !! c = Some (DrmDisplay.make c)).
Proof.
  intros Hok d'.
  destruct (DrmDevice.initialize k d) as [ok d''] eqn:E. simpl in *.
  subst ok d'. apply initialize_true in E as (res & _ & Hres & ->).
  exists res. simpl. split; [done|]. split; [done|].
  assert (Hin : forall c, c ∈ connectors res ->
            is_Some (DrmDevice.create_displays (connectors res)
                       (DrmDevice.mDisplays d) !! c)).
  { intros c Hc. rewrite create_displays_lookup.
    destruct (DrmDevice.mDisplays d !! c); [by eexists|].
    case_decide; [by eexists | done]. }
  split.
  - intros c Hc. split; [by apply Hin|].
    destruct (Hin c Hc) as [x Hx]. by apply (registry_count _ c x).
  - intros Hempty. rewrite Hempty. split.
    + apply set_eq. intros c.
      rewrite elem_of_dom, elem_of_list_to_set, create_displays_lookup.
      rewrite lookup_empty.
      destruct (decide (c ∈ connectors res)) as [Hc|Hc]; split; done.
    + intros c Hc. rewrite create_displays_lookup, lookup_empty.
      case_decide; done.
Qed.

(** Initialising a new device on descriptor 3 of the sample board. *)
Lemma initialize_populates_witness :
  exists res,
    drmModeGetResources kernel_panel 3 = Some res
    /\ DrmDevice.mCrtcs
         (DrmDevice.initialize kernel_panel (DrmDevice.make 3)).2
       = crtcs res
    /\ dom (DrmDevice.mDisplays
              (DrmDevice.initialize kernel_panel (DrmDevice.make 3)).2)
       = list_to_set (connectors res).
Proof.
  destruct (initialize_populates kernel_panel (DrmDevice.make 3))
    as (res & H1 & H2 & _ & H3); [reflexivity|].
  exists res. split; [done|]. split; [done|]. by apply H3.
Defined.

(** C10: [getConnectedDisplay] never changes the device; it returns an
    entity exactly when that entity is registered under the connector and is
    connected, and [nullptr] when the connector is not registered or its
    entity is not connected. *)
Theorem getConnectedDisplay_contract (connector : Z) (d : DrmDevice.t) :
  let r := DrmDevice.getConnectedDisplay connector d in
  r.2 = d
  /\ (forall display,
        r.1 = Some display
        <-> DrmDevice.mDisplays d !! connector = Some display
            /\ DrmDisplay.connected display = true)
  /\ (r.1 = None
      <-> DrmDevice.mDisplays d !! connector = None
          \/ exists display,
               DrmDevice.mDisplays d !! connector = Some display
               /\ DrmDisplay.connected display = false).
Proof.
  unfold DrmDevice.getConnectedDisplay.
  destruct (DrmDevice.mDisplays d !! connector) as [x|] eqn:E; simpl.
  - split; [done|]. destruct (DrmDisplay.connected x) eqn:Ec; split.
    + intros y. split; [by intros [= <-] | by intros [[= <-] _]].
    + split; [done|]. intros [?|(y & [= <-] & ?)]; congruence.
    + intros y. split; [done|]. intros [[= <-] ?]. congruence.
    + split; [|done]. intros _. right. by exists x.
  - split; [done|]. split.
    + intros y. split; [done | by intros [? _]].
    + split; [by left | done].
Qed.

Section Failure.

Import DrmDevice.

Lemma initialize_false k d :
  (initialize k d).1 = false -> initialize k d = (false, d).
Proof.
  rewrite initialize_cases. destruct (mFd d <? 0); [done|].
  by destruct (drmModeGetResources k (mFd d)).
Qed.

(** [enable] touches the registry only through its [update] pass, and the
    reservation state not at all. *)
Lemma enable_frame k callback d :
  let d' := (enable k callback d).1 in
  mDisplays d' = mDisplays (update k d)
  /\ mCrtcs d' = mCrtcs d
  /\ mUsedCrtcs d' = mUsedCrtcs d
  /\ mFd d' = mFd d
  /\ mCallback d' = callback
  /\ mHotplugThread d' = true.
Proof.
  unfold enable. cbv zeta.
  destruct (negb _).
  - destruct (nth_error _ _) as [[? ?]|]; done.
  - destruct (first_connected _ _ _); done.
Qed.

Lemma reportExternal_frame d :
  let d' := (reportExternal d).1 in
  mDisplays d' = mDisplays d /\ mCrtcs d' = mCrtcs d
  /\ mUsedCrtcs d' = mUsedCrtcs d.
Proof. unfold reportExternal. by destruct (_ =? 0). Qed.

(** Only a successful [initialize] puts anything into the registry or the
    pool. *)
Lemma step_keeps_empty c d :
  match c with CallInitialize k => (initialize k d).1 | _ => false end
  = false ->
  mDisplays d = ∅ -> mCrtcs d = [] ->
  mDisplays (step c d) = ∅ /\ mCrtcs (step c d) = [].
Proof.
  intros Hc Hm Hp. destruct c; simpl.
  - unfold getConnectedDisplay. by destruct (_ !! _).
  - unfold reserveCrtc. cbv zeta. by destruct (_ && _).
  - unfold freeCrtc. by destruct (_ <? _).
  - by rewrite (initialize_false _ _ Hc).
  - rewrite Hm. by rewrite fmap_empty.
  - destruct (enable_frame k callback d) as (-> & -> & _). simpl.
    rewrite Hm. by rewrite fmap_empty.
  - by destruct (reportExternal_frame d) as (-> & -> & _).
Qed.

Lemma never_initialized_empty cs d :
  ever_initialized cs d = false ->
  mDisplays d = ∅ -> mCrtcs d = [] ->
  mDisplays (run cs d) = ∅ /\ mCrtcs (run cs d) = [].
Proof.
  revert d. induction cs as [|c cs IH]; intros d Hnever Hm Hp; [done|].
  simpl in Hnever. apply orb_false_iff in Hnever as [Hc Hrest].
  destruct (step_keeps_empty c d Hc Hm Hp) as [Hm' Hp'].
  simpl. by apply IH.
Qed.

(** The registry invariant holds in every state that calls can reach from
    a newly constructed device. *)
Lemma registry_wf_step c d :
  registry_wf (mDisplays d) -> registry_wf (mDisplays (step c d)).
Proof.
  intros Hd. destruct c; simpl.
  - unfold getConnectedDisplay. by destruct (_ !! _).
  - unfold reserveCrtc. cbv zeta. by destruct (_ && _).
  - unfold freeCrtc. by destruct (_ <? _).
  - rewrite initialize_cases. destruct (mFd d <? 0); [done|].
    destruct (drmModeGetResources k (mFd d)); [|done]. simpl.
    by apply registry_wf_create.
  - by apply (registry_wf_update k d).
  - destruct (enable_frame k callback d) as (-> & _).
    by apply (registry_wf_update k d).
  - by destruct (reportExternal_frame d) as (-> & _).
Qed.

Lemma registry_wf_run cs fd : registry_wf (mDisplays (run cs (make fd))).
Proof.
  assert (H : forall d, registry_wf (mDisplays d) ->
                        registry_wf (mDisplays (run cs d))).
  { induction cs as [|c cs IH]; intros d Hd; [done|].
    simpl. apply IH. by apply registry_wf_step. }
  apply H. simpl. apply registry_wf_empty.
Qed.

End Failure.

(** C8: if the device handle is invalid or the kernel refuses the resource
    query, [initialize] returns [false] and leaves the device as it was;
    hence on a device that calls have brought from its construction to this
    point without a successful [initialize], the registry and the pool are
    empty after the failed call. *)
Theorem initialize_failure (k : Kernel) (d : DrmDevice.t) :
  DrmDevice.mFd d < 0 \/ drmModeGetResources k (DrmDevice.mFd d) = None ->
  DrmDevice.initialize k d = (false, d)
  /\ forall fd cs,
       d = DrmDevice.run cs (DrmDevice.make fd) ->
       DrmDevice.ever_initialized cs (DrmDevice.make fd) = false ->
       DrmDevice.mDisplays (DrmDevice.initialize k d).2 = ∅
       /\ DrmDevice.mCrtcs (DrmDevice.initialize k d).2 = [].
Proof.
  intros H.
  assert (E : DrmDevice.initialize k d = (false, d)).
  { rewrite initialize_cases. destruct H as [H|H].
    - destruct (DrmDevice.mFd d <? 0) eqn:E; [done | lia].
    - rewrite H. by destruct (DrmDevice.mFd d <? 0). }
  split; [done|]. intros fd cs -> Hnever. rewrite E. simpl.
  by apply never_initialized_empty.
Qed.

(** A device on a descriptor that failed to open, and a device whose
    kernel refuses the query after an earlier refused attempt and an
    update pass. *)
Lemma initialize_failure_witness :
  DrmDevice.initialize kernel_panel (DrmDevice.make (-1))
  = (false, DrmDevice.make (-1))
  /\ (let d :=
        DrmDevice.run
          [DrmDevice.CallInitialize kernel_refusing;
           DrmDevice.CallUpdate kernel_panel;
           DrmDevice.CallReserveCrtc 0]
          (DrmDevice.make 3) in
      DrmDevice.mDisplays (DrmDevice.initialize kernel_refusing d).2 = ∅
      /\ DrmDevice.mCrtcs (DrmDevice.initialize kernel_refusing d).2 = []).
Proof.
  split.
  - apply (initialize_failure kernel_panel (DrmDevice.make (-1))).
    left. simpl. lia.
  - intros d.
    destruct (initialize_failure kernel_refusing d) as [_ H];
      [by right|].
    by apply (H 3
                [DrmDevice.CallInitialize kernel_refusing;
                 DrmDevice.CallUpdate kernel_panel;
                 DrmDevice.CallReserveCrtc 0]).
Defined.

(** C9 (as amended): every call of [initialize] that succeeds, a second
    one included, queries the kernel again, replaces the pool by the engines
    returned this time and adds an entity for each returned connector that
    has no entry yet; an entry already registered under a returned
    connector is kept, and the entity constructed for that connector is
    dropped. *)
Theorem initialize_keeps_entries (k : Kernel) (d : DrmDevice.t) :
  (DrmDevice.initialize k d).1 = true ->
  let d' := (DrmDevice.initialize k d).2 in
  exists res,
    drmModeGetResources k (DrmDevice.mFd d) = Some res
    /\ DrmDevice.mCrtcs d' = crtcs res
    /\ forall c,
         DrmDevice.mDisplays d' !! c
         = match DrmDevice.mDisplays d !! c with
           | Some old => Some old
           | None =>
               if decide (c ∈ connectors res)
               then Some (DrmDisplay.make c) else None
           end.
Proof.
  intros Hok d'.
  destruct (DrmDevice.initialize k d) as [ok d''] eqn:E. simpl in *.
  subst ok d'. apply initialize_true in E as (res & _ & Hres & ->).
  exists res. simpl. split; [done|]. split; [done|].
  intros c. apply create_displays_lookup.
Qed.

(** A second initialisation after an update pass has seen the panel and
    the monitor: connector 7 keeps its connected entity, the pool is the
    queried one. *)
Lemma initialize_keeps_entries_witness :
  let d := DrmDevice.update kernel_panel
             (DrmDevice.initialize kernel_panel (DrmDevice.make 3)).2 in
  DrmDevice.mCrtcs (DrmDevice.initialize kernel_monitors d).2 = [31; 32; 33]
  /\ DrmDevice.mDisplays (DrmDevice.initialize kernel_monitors d).2 !! 7
     = DrmDevice.mDisplays d !! 7.
Proof.
  intros d.
  destruct (initialize_keeps_entries kernel_monitors d)
    as (res & H1 & H2 & H3); [reflexivity|].
  split.
  - rewrite H2. vm_compute in H1. by injection H1 as <-.
  - rewrite H3. reflexivity.
Defined.

(** C9 (as stated) fails: after an update pass has marked connector 7
    connected, a second [initialize] that is handed connector 7 again
    leaves that entity in the registry, not a newly constructed one. *)
Lemma initialize_overwrites_fails :
  ~ initialize_overwrites kernel_panel
      (DrmDevice.update kernel_panel
         (DrmDevice.initialize kernel_panel (DrmDevice.make 3)).2).
Proof.
  intros H.
  specialize (H {| crtcs := [31; 32; 33]; connectors := [7; 9; 12] |}
                eq_refl 7).
  assert (Hin : 7 ∈ [7; 9; 12]) by apply list_elem_of_here.
  specialize (H Hin). vm_compute in H. done.
Qed.

(** ** The primary-display protocol *)

Section Protocol.

Import DrmDevice.

Lemma find_if_none {A} (p : A -> bool) i l :
  (forall x, x ∈ l -> p x = false) ->
  find_if p i l = (i + List.length l)%nat.
Proof.
  revert i. induction l as [|x l IH]; intros i H; simpl; [lia|].
  rewrite (H x) by apply list_elem_of_here.
  rewrite IH; [lia|]. intros y Hy. apply H. by apply list_elem_of_further.
Qed.

Lemma find_if_some {A} (p : A -> bool) i l :
  (exists x, x ∈ l /\ p x = true) ->
  exists x,
    nth_error l (find_if p i l - i) = Some x /\ p x = true
    /\ (i <= find_if p i l < i + List.length l)%nat.
Proof.
  revert i. induction l as [|y l IH]; intros i (x & Hx & Hp).
  - by inversion Hx.
  - simpl. destruct (p y) eqn:Ey.
    + exists y. rewrite Nat.sub_diag. split; [done|]. split; [done|lia].
    + apply elem_of_cons in Hx as [->|Hx]; [congruence|].
      destruct (IH (S i)) as (z & Hz & Hpz & Hi); [by exists x|].
      exists z. split; [|split; [done|lia]].
      replace (find_if p (S i) l - i)%nat
        with (S (find_if p (S i) l - S i)) by lia.
      done.
Qed.

(** When [primary] is the end iterator the loop never skips, and reports
    the first connected entity. *)
Lemma first_connected_at_end primary i l :
  (i + List.length l <= primary)%nat ->
  first_connected primary i l
  = match List.filter is_connected l with
    | [] => None
    | e :: _ => Some e.2
    end.
Proof.
  revert i. induction l as [|[key x] l IH]; intros i Hi; simpl in *; [done|].
  destruct (Nat.eqb_spec i primary) as [->|_]; [lia|].
  unfold is_connected at 1. simpl.
  destruct (DrmDisplay.connected x); [done|]. apply IH. lia.
Qed.

(** The deferred loop looks at connected entities only. *)
Lemma report_others_connected primary l :
  report_others primary l
  = report_others primary (List.filter is_connected l).
Proof.
  induction l as [|[key x] l IH]; simpl; [done|].
  unfold is_connected at 1. simpl.
  destruct (DrmDisplay.connected x) eqn:E; simpl.
  - rewrite E, IH. done.
  - rewrite andb_false_r. done.
Qed.

Lemma filter_none {A} (p : A -> bool) l :
  (forall x, x ∈ l -> p x = false) -> List.filter p l = [].
Proof.
  induction l as [|x l IH]; intros H; simpl; [done|].
  rewrite (H x) by apply list_elem_of_here.
  apply IH. intros y Hy. apply H. by apply list_elem_of_further.
Qed.

Lemma filter_keys_NoDup {A} (p : Z * A -> bool) l :
  NoDup (l.*1) -> NoDup ((List.filter p l).*1).
Proof.
  induction l as [|e l IH]; intros Hnd; simpl; [done|].
  simpl in Hnd. apply NoDup_cons in Hnd as [He Hnd].
  destruct (p e); [|by apply IH].
  simpl. apply NoDup_cons. split; [|by apply IH].
  intros Hin. apply He. apply list_elem_of_fmap in Hin as (e' & -> & He').
  apply list_elem_of_fmap. exists e'. split; [done|].
  apply list_elem_of_In in He'. apply List.filter_In in He' as [He' _].
  by apply list_elem_of_In.
Qed.

Lemma elem_of_filter_connected e l :
  e ∈ List.filter is_connected l -> e ∈ l /\ DrmDisplay.connected e.2 = true.
Proof.
  intros H. apply list_elem_of_In in H. apply List.filter_In in H as [H1 H2].
  split; [by apply list_elem_of_In | done].
Qed.

(** In a registry that stores every entity under its own identifier, the
    connected entities that the iteration meets carry pairwise different
    identifiers. *)
Lemma connected_ids_distinct (m : gmap Z DrmDisplay.t) ka A kb B rest :
  registry_wf m ->
  List.filter is_connected (map_to_list m) = (ka, A) :: (kb, B) :: rest ->
  DrmDisplay.id B <> DrmDisplay.id A.
Proof.
  intros Hwf Hconn. unfold registry_wf in Hwf.
  rewrite map_Forall_lookup in Hwf.
  assert (HinA : (ka, A) ∈ List.filter is_connected (map_to_list m)).
  { rewrite Hconn. apply list_elem_of_here. }
  assert (HinB : (kb, B) ∈ List.filter is_connected (map_to_list m)).
  { rewrite Hconn. apply list_elem_of_further, list_elem_of_here. }
  apply elem_of_filter_connected in HinA as [HA _].
  apply elem_of_filter_connected in HinB as [HB _].
  apply elem_of_map_to_list in HA. apply elem_of_map_to_list in HB.
  rewrite (Hwf ka A HA), (Hwf kb B HB).
  assert (Hnd : NoDup ((List.filter is_connected (map_to_list m)).*1)).
  { apply filter_keys_NoDup. apply NoDup_fst_map_to_list. }
  rewrite Hconn in Hnd. simpl in Hnd.
  apply NoDup_cons in Hnd as [Hnd _]. intros ->. apply Hnd.
  apply list_elem_of_here.
Qed.

Lemma enable_cases k callback d :
  let d1 := set_mCallback callback (update k d) in
  let displays := map_to_list (mDisplays (update k d)) in
  let primary := find_if is_primary 0%nat displays in
  enable k callback d
  = let '(d2, reports) :=
      if negb (Nat.eqb primary (List.length displays)) then
        match nth_error displays primary with
        | Some (_, display) =>
            (set_mPrimaryDisplay (DrmDisplay.id display) d1, [display])
        | None => (d1, [])
        end
      else
        match first_connected primary 0%nat displays with
        | Some display =>
            (set_mPrimaryDisplay (DrmDisplay.id display) d1, [display])
        | None => (d1, [])
        end in
    (set_mHotplugThread true d2, reports).
Proof. reflexivity. Qed.

End Protocol.

(** C5: when, after the update pass of [enable], exactly one registered
    output is both connected and internal, [enable] calls [report()] on
    that output and on no other, and the primary marker is that output's
    identifier afterwards. *)
Theorem enable_reports_internal (k : Kernel)
    (callback : option DrmDevice.DrmCallback) (d : DrmDevice.t)
    (key : Z) (A : DrmDisplay.t) :
  let m := DrmDevice.mDisplays (DrmDevice.update k d) in
  m !! key = Some A ->
  DrmDisplay.connected A = true ->
  DrmDisplay.internal A = true ->
  (forall key' A',
     m !! key' = Some A' ->
     DrmDisplay.connected A' = true -> DrmDisplay.internal A' = true ->
     key' = key) ->
  (DrmDevice.enable k callback d).2 = [A]
  /\ DrmDevice.mPrimaryDisplay (DrmDevice.enable k callback d).1
     = DrmDisplay.id A.
Proof.
  intros m HA Hc Hi Huniq. rewrite enable_cases. cbv zeta. fold m.
  destruct (find_if_some is_primary 0%nat (map_to_list m))
    as ([key' A'] & Hnth & Hp & Hlt).
  { exists (key, A). split; [by apply elem_of_map_to_list|].
    unfold is_primary. simpl. by rewrite Hc, Hi. }
  rewrite Nat.sub_0_r in Hnth. rewrite Hnth.
  destruct (Nat.eqb_spec (DrmDevice.find_if is_primary 0%nat (map_to_list m))
              (List.length (map_to_list m))) as [E|_]; [lia|]. simpl.
  assert (HA' : m !! key' = Some A').
  { apply elem_of_map_to_list. apply list_elem_of_In.
    by apply nth_error_In in Hnth. }
  unfold is_primary in Hp. simpl in Hp. apply andb_true_iff in Hp as [? ?].
  assert (key' = key) by by apply (Huniq key' A').
  subst key'. rewrite HA in HA'. injection HA' as <-. done.
Qed.

(** The sample board with a panel on connector 7 and a monitor on 12. *)
Lemma enable_reports_internal_witness :
  let d := (DrmDevice.initialize kernel_panel (DrmDevice.make 3)).2 in
  let A := {| DrmDisplay.id := 7; DrmDisplay.connected := true;
              DrmDisplay.internal := true |} in
  (DrmDevice.enable kernel_panel (Some 1%positive) d).2 = [A]
  /\ DrmDevice.mPrimaryDisplay
       (DrmDevice.enable kernel_panel (Some 1%positive) d).1 = 7.
Proof.
  intros d A.
  apply (enable_reports_internal kernel_panel (Some 1%positive) d 7 A);
    try reflexivity.
  intros key' A' H Hc Hi.
  change (DrmDevice.mDisplays (DrmDevice.update kernel_panel d))
    with (DrmDisplay.update kernel_panel <$> DrmDevice.mDisplays d) in H.
  rewrite lookup_fmap in H.
  destruct (DrmDevice.mDisplays d !! key') as [x|] eqn:E; [|done].
  injection H as <-. simpl in Hi. apply Z.eqb_eq in Hi.
  assert (Hwf : registry_wf (DrmDevice.mDisplays d)).
  { apply (registry_wf_run [DrmDevice.CallInitialize kernel_panel] 3). }
  unfold registry_wf in Hwf. rewrite map_Forall_lookup in Hwf.
  specialize (Hwf key' x E). simpl in Hwf. lia.
Defined.

(** C7: when no registered output is connected after the update pass,
    [enable] calls no [report()] and leaves the primary marker as it was,
    absent if it was absent; and [reportExternal] on any device whose
    primary marker is absent returns the device unchanged and calls no
    [report()]. *)
Theorem enable_nothing_connected (k : Kernel)
    (callback : option DrmDevice.DrmCallback) (d : DrmDevice.t) :
  (forall key x,
     DrmDevice.mDisplays (DrmDevice.update k d) !! key = Some x ->
     DrmDisplay.connected x = false) ->
  (DrmDevice.enable k callback d).2 = []
  /\ DrmDevice.mPrimaryDisplay (DrmDevice.enable k callback d).1
     = DrmDevice.mPrimaryDisplay d
  /\ (forall d0, DrmDevice.mPrimaryDisplay d0 = 0 ->
                 DrmDevice.reportExternal d0 = (d0, []))
  /\ (DrmDevice.mPrimaryDisplay d = 0 ->
      DrmDevice.reportExternal (DrmDevice.enable k callback d).1
      = ((DrmDevice.enable k callback d).1, [])).
Proof.
  intros Hnone.
  assert (Hre : forall d0, DrmDevice.mPrimaryDisplay d0 = 0 ->
                           DrmDevice.reportExternal d0 = (d0, [])).
  { intros d0 H0. unfold DrmDevice.reportExternal. by rewrite H0. }
  set (l := map_to_list (DrmDevice.mDisplays (DrmDevice.update k d))).
  assert (Hl : forall e, e ∈ l -> DrmDisplay.connected e.2 = false).
  { intros [key x] He. apply elem_of_map_to_list in He. simpl.
    by apply (Hnone key x). }
  assert (E : DrmDevice.enable k callback d
              = (DrmDevice.set_mHotplugThread true
                   (DrmDevice.set_mCallback callback (DrmDevice.update k d)),
                 [])).
  { rewrite enable_cases. cbv zeta. fold l.
    rewrite (find_if_none is_primary 0%nat l).
    - simpl. rewrite Nat.eqb_refl. simpl.
      rewrite first_connected_at_end by (simpl; lia).
      rewrite (filter_none is_connected l); [done|].
      intros e He. by apply Hl.
    - intros e He. unfold is_primary. by rewrite (Hl e He). }
  rewrite E. simpl. split; [done|]. split; [done|]. split; [done|].
  intros H0. by apply Hre.
Qed.

(** The sample board with nothing attached. *)
Lemma enable_nothing_connected_witness :
  let d := (DrmDevice.initialize kernel_unplugged (DrmDevice.make 3)).2 in
  (DrmDevice.enable kernel_unplugged (Some 1%positive) d).2 = []
  /\ DrmDevice.mPrimaryDisplay
       (DrmDevice.enable kernel_unplugged (Some 1%positive) d).1 = 0.
Proof.
  intros d.
  destruct (enable_nothing_connected kernel_unplugged (Some 1%positive) d)
    as (H1 & H2 & _).
  - intros key x H.
    change (DrmDevice.mDisplays (DrmDevice.update kernel_unplugged d))
      with (DrmDisplay.update kernel_unplugged <$> DrmDevice.mDisplays d)
      in H.
    rewrite lookup_fmap in H.
    destruct (DrmDevice.mDisplays d !! key); [|done]. by injection H as <-.
  - split; [done|]. by rewrite H2.
Defined.

(** C6: in a registry with no internal output and with exactly two
    connected outputs after the update pass, A before B in iteration order,
    whose identifiers are those of two connectors (different from each
    other, and A's not the 0 that stands for "none"), [enable] calls
    [report()] on A only and sets the primary marker to A's identifier; a
    following [reportExternal] calls [report()] on B only and leaves the
    marker at 0. *)
Theorem enable_then_reportExternal (k : Kernel)
    (callback : option DrmDevice.DrmCallback) (d : DrmDevice.t)
    (ka kb : Z) (A B : DrmDisplay.t) :
  let m := DrmDevice.mDisplays (DrmDevice.update k d) in
  (forall key x, m !! key = Some x -> DrmDisplay.internal x = false) ->
  List.filter is_connected (map_to_list m) = [(ka, A); (kb, B)] ->
  DrmDisplay.id A <> 0 ->
  DrmDisplay.id B <> DrmDisplay.id A ->
  let r1 := DrmDevice.enable k callback d in
  let r2 := DrmDevice.reportExternal r1.1 in
  r1.2 = [A]
  /\ DrmDevice.mPrimaryDisplay r1.1 = DrmDisplay.id A
  /\ r2.2 = [B]
  /\ DrmDevice.mPrimaryDisplay r2.1 = 0.
Proof.
  intros m Hint Hconn Hid Hdiff r1 r2.
  set (l := map_to_list m) in *.
  assert (HinB : (kb, B) ∈ List.filter is_connected l).
  { rewrite Hconn. apply list_elem_of_further, list_elem_of_here. }
  apply elem_of_filter_connected in HinB as [_ HcB]. simpl in HcB.
  assert (E : r1 = (DrmDevice.set_mHotplugThread true
                      (DrmDevice.set_mPrimaryDisplay (DrmDisplay.id A)
                         (DrmDevice.set_mCallback callback
                            (DrmDevice.update k d))),
                    [A])).
  { subst r1. rewrite enable_cases. cbv zeta. fold m. fold l.
    rewrite (find_if_none is_primary 0%nat l).
    - simpl. rewrite Nat.eqb_refl. simpl.
      rewrite first_connected_at_end by (simpl; lia).
      by rewrite Hconn.
    - intros [key x] He. apply elem_of_map_to_list in He.
      unfold is_primary. simpl. rewrite (Hint key x He).
      apply andb_false_r. }
  subst r2. rewrite E. simpl. split; [done|]. split; [done|].
  unfold DrmDevice.reportExternal. simpl.
  destruct (Z.eqb_spec (DrmDisplay.id A) 0) as [?|_]; [done|]. simpl.
  change (map_to_list (DrmDisplay.update k <$> DrmDevice.mDisplays d))
    with l.
  rewrite report_others_connected, Hconn. simpl.
  rewrite Z.eqb_refl. simpl.
  destruct (Z.eqb_spec (DrmDisplay.id B) (DrmDisplay.id A)) as [Heq|_];
    [congruence|].
  simpl. by rewrite HcB.
Qed.

(** The sample board with monitors on connectors 9 and 12, which the
    registry iterates in this order. *)
Lemma enable_then_reportExternal_witness :
  let d := (DrmDevice.initialize kernel_monitors (DrmDevice.make 3)).2 in
  let A := {| DrmDisplay.id := 9; DrmDisplay.connected := true;
              DrmDisplay.internal := false |} in
  let B := {| DrmDisplay.id := 12; DrmDisplay.connected := true;
              DrmDisplay.internal := false |} in
  let r1 := DrmDevice.enable kernel_monitors (Some 1%positive) d in
  let r2 := DrmDevice.reportExternal r1.1 in
  r1.2 = [A] /\ DrmDevice.mPrimaryDisplay r1.1 = 9
  /\ r2.2 = [B] /\ DrmDevice.mPrimaryDisplay r2.1 = 0.
Proof.
  intros d A B.
  apply (enable_then_reportExternal kernel_monitors (Some 1%positive) d
           9 12 A B).
  - intros key x H.
    change (DrmDevice.mDisplays (DrmDevice.update kernel_monitors d))
      with (DrmDisplay.update kernel_monitors <$> DrmDevice.mDisplays d)
      in H.
    rewrite lookup_fmap in H.
    destruct (DrmDevice.mDisplays d !! key); [|done]. by injection H as <-.
  - reflexivity.
  - simpl. lia.
  - simpl. lia.
Defined.

(** ** Further properties of the reservation functions *)

Section ReservationMore.

Import DrmDevice.

(** Bit [i] of an [int] operand as the [unsigned] operation sees it. *)
Lemma testbit_low_to_unsigned z i :
  i < 32 -> Z.testbit z i = Z.testbit (Int32.to_unsigned z) i.
Proof.
  intros Hi. rewrite testbit_to_unsigned.
  destruct (i <? 32) eqn:E; [done | lia].
Qed.

(** In a pool of at most 32 engines a call on another index leaves bit
    [p] as it is. *)
Lemma run_call_other_bit c pipe d :
  Z.of_nat (List.length (mCrtcs d)) <= 32 ->
  Z.of_N pipe < 32 ->
  c <> Reserve pipe -> c <> Free pipe ->
  Z.testbit (mUsedCrtcs (run_call c d)) (Z.of_N pipe)
  = Z.testbit (mUsedCrtcs d) (Z.of_N pipe).
Proof.
  intros Hpool Hp Hr Hf.
  assert (Hlt : (Z.of_N pipe <? 32) = true) by (apply Z.ltb_lt; lia).
  destruct c as [q|q]; unfold run_call.
  - assert (Hq : (Z.of_N q =? Z.of_N pipe) = false).
    { apply Z.eqb_neq. intros H. apply Hr. f_equal. lia. }
    unfold reserveCrtc. cbv zeta.
    destruct (Z.of_N q <? _) eqn:Eq; cbn [andb snd]; [|done].
    apply Z.ltb_lt in Eq.
    destruct (_ =? 0); cbn [snd mUsedCrtcs set_mUsedCrtcs]; [|done].
    rewrite testbit_or_u, Hlt.
    rewrite (testbit_low_to_unsigned (Int32.shl1 q)) by done.
    rewrite testbit_shl1, Hlt, count_narrow, Hq by lia.
    simpl. apply orb_false_r.
  - assert (Hq : (Z.of_N q =? Z.of_N pipe) = false).
    { apply Z.eqb_neq. intros H. apply Hf. f_equal. lia. }
    unfold freeCrtc.
    destruct (Z.of_N q <? _) eqn:Eq; cbn [mUsedCrtcs set_mUsedCrtcs];
      [|done].
    apply Z.ltb_lt in Eq.
    rewrite testbit_and_u, Hlt.
    rewrite (testbit_low_to_unsigned (Int32.not_int _)) by done.
    rewrite testbit_not_shl1, Hlt, count_narrow, Hq by lia.
    simpl. apply andb_true_r.
Qed.

(** In a pool of at most 32 engines only [freeCrtc] on the same index
    clears a set bit. *)
Lemma run_call_keeps_bit c pipe d :
  Z.of_nat (List.length (mCrtcs d)) <= 32 ->
  Z.of_N pipe < 32 -> c <> Free pipe ->
  Z.testbit (mUsedCrtcs d) (Z.of_N pipe) = true ->
  Z.testbit (mUsedCrtcs (run_call c d)) (Z.of_N pipe) = true.
Proof.
  intros Hpool Hp Hf Hset.
  assert (Hdec : c = Reserve pipe \/ c <> Reserve pipe).
  { destruct c as [q|q]; [|by right].
    destruct (N.eq_dec q pipe) as [->|Hne]; [by left|].
    right. by intros [= ->]. }
  destruct Hdec as [->|Hr].
  - assert (Hlt : (Z.of_N pipe <? 32) = true) by (apply Z.ltb_lt; lia).
    unfold run_call, reserveCrtc. cbv zeta.
    destruct (_ && _); cbn [snd mUsedCrtcs set_mUsedCrtcs]; [|done].
    by rewrite testbit_or_u, Hlt, Hset.
  - by rewrite run_call_other_bit.
Qed.

Lemma reserveCrtc_taken pipe d :
  Z.of_N pipe < 32 ->
  Z.testbit (mUsedCrtcs d) (Z.of_N pipe) = true ->
  reserveCrtc pipe d = (0, d).
Proof.
  intros Hp Hset. unfold reserveCrtc. cbv zeta.
  rewrite and_u_shl1_zero, count_narrow, Hset by done.
  simpl. by rewrite andb_false_r.
Qed.

Lemma setbit_unsigned m p :
  is_unsigned m -> 0 <= p < 32 -> is_unsigned (Z.setbit m p).
Proof.
  intros Hm Hp. apply unsigned_of_bits. intros i Hi.
  rewrite Z.setbit_eqb by lia. rewrite (testbit_high m i) by done.
  destruct (p =? i) eqn:E; [lia | done].
Qed.

Lemma clearbit_setbit m p :
  0 <= p -> Z.testbit m p = false -> Z.clearbit (Z.setbit m p) p = m.
Proof.
  intros Hp Hc. apply Z.bits_inj'. intros i Hi.
  rewrite Z.clearbit_eqb, Z.setbit_eqb by done.
  destruct (p =? i) eqn:E; simpl.
  - apply Z.eqb_eq in E. subst i. by rewrite Hc.
  - apply andb_true_r.
Qed.

End ReservationMore.

(** X1: reserving a free engine of the pool (index below the mask width)
    and freeing it again returns the device to the state before the
    reservation; the reservation handed out the engine at that position. *)
Theorem reserveCrtc_freeCrtc_roundtrip (pipe : N) (d : DrmDevice.t) :
  is_unsigned (DrmDevice.mUsedCrtcs d) ->
  Z.of_N pipe < 32 ->
  Z.of_N pipe < Z.of_nat (List.length (DrmDevice.mCrtcs d)) ->
  Z.testbit (DrmDevice.mUsedCrtcs d) (Z.of_N pipe) = false ->
  (DrmDevice.reserveCrtc pipe d).1
  = nth (N.to_nat pipe) (DrmDevice.mCrtcs d) 0
  /\ DrmDevice.freeCrtc pipe (DrmDevice.reserveCrtc pipe d).2 = d.
Proof.
  intros Hm Hp Hin Hc. rewrite reserveCrtc_narrow by done. rewrite Hc.
  destruct (Z.of_N pipe <? _) eqn:E; [|lia]. simpl. split; [done|].
  rewrite freeCrtc_eq;
    [| simpl; apply setbit_unsigned; [done | lia] | done].
  simpl. rewrite E, clearbit_setbit by (done || lia).
  clear. by destruct d.
Qed.

(** Engine 2 of a pool of four with engines 0 and 1 in use. *)
Lemma reserveCrtc_freeCrtc_roundtrip_witness :
  let d := DrmDevice.set_mUsedCrtcs 3
             (DrmDevice.set_mCrtcs [31; 32; 33; 34] (DrmDevice.make 3)) in
  (DrmDevice.reserveCrtc 2 d).1 = 33
  /\ DrmDevice.freeCrtc 2 (DrmDevice.reserveCrtc 2 d).2 = d.
Proof.
  intros d.
  apply (reserveCrtc_freeCrtc_roundtrip 2 d).
  - unfold is_unsigned. simpl. rewrite modulus_eq. lia.
  - simpl. lia.
  - simpl. lia.
  - reflexivity.
Defined.

(** X2: exclusivity in a pool of at most 32 engines.  Once an engine
    (index below the mask width) is marked in use, every later
    [reserveCrtc] on that index returns 0 and changes nothing, whatever
    reservations and releases of other indices and repeated attempts on
    this one come in between, until [freeCrtc] is called on that index. *)
Theorem reserveCrtc_exclusive (pipe : N) (cs : list DrmDevice.crtc_call)
    (d : DrmDevice.t) :
  Z.of_nat (List.length (DrmDevice.mCrtcs d)) <= 32 ->
  Z.of_N pipe < 32 ->
  Z.testbit (DrmDevice.mUsedCrtcs d) (Z.of_N pipe) = true ->
  DrmDevice.Free pipe ∉ cs ->
  DrmDevice.reserveCrtc pipe (DrmDevice.run_calls cs d)
  = (0, DrmDevice.run_calls cs d).
Proof.
  intros Hpool Hp Hset Hfree. apply reserveCrtc_taken; [done|].
  revert d Hpool Hset.
  induction cs as [|c cs IH]; intros d Hpool Hset; [done|].
  rewrite run_calls_cons. apply IH.
  - intros H. apply Hfree. by apply list_elem_of_further.
  - by rewrite run_call_mCrtcs.
  - apply run_call_keeps_bit; [done | done | | done].
    intros ->. apply Hfree. apply list_elem_of_here.
Qed.

(** Engine 1 is held while others come and go. *)
Lemma reserveCrtc_exclusive_witness :
  let d := (DrmDevice.reserveCrtc 1
              (DrmDevice.set_mCrtcs [31; 32; 33; 34] (DrmDevice.make 3))).2 in
  let cs := [DrmDevice.Reserve 0; DrmDevice.Reserve 1; DrmDevice.Free 0;
             DrmDevice.Free 3; DrmDevice.Reserve 2] in
  DrmDevice.reserveCrtc 1 (DrmDevice.run_calls cs d)
  = (0, DrmDevice.run_calls cs d).
Proof.
  intros d cs. apply (reserveCrtc_exclusive 1 cs d).
  - simpl. lia.
  - simpl. lia.
  - reflexivity.
  - intros H. repeat (apply elem_of_cons in H as [H|H]; [discriminate|]).
    by apply elem_of_nil in H.
Defined.

(** X3: independence in a pool of at most 32 engines.  What
    [reserveCrtc] returns for an index below the mask width depends on
    that index alone: a reservation or release of any other index before
    it does not change the returned value. *)
Theorem reserveCrtc_independent (pipe : N) (c : DrmDevice.crtc_call)
    (d : DrmDevice.t) :
  Z.of_nat (List.length (DrmDevice.mCrtcs d)) <= 32 ->
  Z.of_N pipe < 32 ->
  c <> DrmDevice.Reserve pipe -> c <> DrmDevice.Free pipe ->
  (DrmDevice.reserveCrtc pipe (DrmDevice.run_call c d)).1
  = (DrmDevice.reserveCrtc pipe d).1.
Proof.
  intros Hpool Hp Hr Hf.
  assert (Hfst : forall d0,
            (DrmDevice.reserveCrtc pipe d0).1
            = if (Z.of_N pipe <? Z.of_nat (List.length (DrmDevice.mCrtcs d0)))
                 && negb (Z.testbit (DrmDevice.mUsedCrtcs d0) (Z.of_N pipe))
              then nth (N.to_nat pipe) (DrmDevice.mCrtcs d0) 0 else 0).
  { intros d0. unfold DrmDevice.reserveCrtc. cbv zeta.
    rewrite and_u_shl1_zero, count_narrow by done. by destruct (_ && _). }
  rewrite !Hfst, run_call_mCrtcs. by rewrite run_call_other_bit.
Qed.

(** Reserving engine 0 first does not change the answer for engine 2. *)
Lemma reserveCrtc_independent_witness :
  let d := DrmDevice.set_mCrtcs [31; 32; 33; 34] (DrmDevice.make 3) in
  (DrmDevice.reserveCrtc 2
     (DrmDevice.run_call (DrmDevice.Reserve 0) d)).1
  = (DrmDevice.reserveCrtc 2 d).1.
Proof.
  intros d.
  apply (reserveCrtc_independent 2 (DrmDevice.Reserve 0) d);
    [simpl; lia | simpl; lia | discriminate | discriminate].
Defined.

(** ** Further properties of initialisation and of the registry *)

Section RegistryMore.

Import DrmDevice.

Lemma create_displays_twice cs (m : gmap Z DrmDisplay.t) :
  create_displays cs (create_displays cs m) = create_displays cs m.
Proof.
  apply map_eq. intros c. rewrite !create_displays_lookup.
  destruct (m !! c); [done|]. by destruct (decide (c ∈ cs)).
Qed.

Lemma step_mFd c d : mFd (step c d) = mFd d.
Proof.
  destruct c; simpl.
  - unfold getConnectedDisplay. by destruct (_ !! _).
  - unfold reserveCrtc. cbv zeta. by destruct (_ && _).
  - unfold freeCrtc. by destruct (_ <? _).
  - rewrite initialize_cases. destruct (mFd d <? 0); [done|].
    by destruct (drmModeGetResources k (mFd d)).
  - done.
  - by destruct (enable_frame k callback d) as (_ & _ & _ & -> & _).
  - unfold reportExternal. by destruct (_ =? 0).
Qed.

Lemma run_mFd cs d : mFd (run cs d) = mFd d.
Proof.
  revert d. induction cs as [|c cs IH]; intros d; [done|].
  simpl. by rewrite IH, step_mFd.
Qed.

(** The registry after one call, entry by entry. *)
Lemma step_lookup c d key :
  mDisplays (step c d) !! key
  = match c with
    | CallInitialize k =>
        if mFd d <? 0 then mDisplays d !! key
        else match drmModeGetResources k (mFd d) with
             | None => mDisplays d !! key
             | Some res =>
                 match mDisplays d !! key with
                 | Some old => Some old
                 | None => if decide (key ∈ connectors res)
                           then Some (DrmDisplay.make key) else None
                 end
             end
    | CallUpdate k | CallEnable k _ =>
        DrmDisplay.update k <$> mDisplays d !! key
    | _ => mDisplays d !! key
    end.
Proof.
  destruct c; simpl.
  - unfold getConnectedDisplay. by destruct (mDisplays d !! connector).
  - unfold reserveCrtc. cbv zeta. by destruct (_ && _).
  - unfold freeCrtc. by destruct (_ <? _).
  - rewrite initialize_cases. destruct (mFd d <? 0); [done|].
    destruct (drmModeGetResources k (mFd d)); [|done]. simpl.
    apply create_displays_lookup.
  - apply lookup_fmap.
  - destruct (enable_frame k callback d) as (-> & _). simpl.
    apply lookup_fmap.
  - by destruct (reportExternal_frame d) as (-> & _).
Qed.

(** A call that is not [initialize] keeps the key set and the pool. *)
Lemma step_keeps_keys c d :
  is_initialize c = false ->
  dom (mDisplays (step c d)) = dom (mDisplays d)
  /\ mCrtcs (step c d) = mCrtcs d.
Proof.
  intros Hc. split.
  - apply set_eq. intros key. rewrite !elem_of_dom, step_lookup.
    destruct c; try done; by rewrite fmap_is_Some.
  - destruct c; try done; simpl.
    + unfold getConnectedDisplay. by destruct (_ !! _).
    + unfold reserveCrtc. cbv zeta. by destruct (_ && _).
    + unfold freeCrtc. by destruct (_ <? _).
    + by destruct (enable_frame k callback d) as (_ & -> & _).
    + by destruct (reportExternal_frame d) as (_ & -> & _).
Qed.

Lemma never_initializes cs d :
  mFd d < 0 -> ever_initialized cs d = false.
Proof.
  revert d. induction cs as [|c cs IH]; intros d Hfd; [done|].
  simpl. rewrite IH by by rewrite step_mFd.
  rewrite orb_false_r. destruct c; try done.
  rewrite initialize_cases. destruct (mFd d <? 0) eqn:E; [done | lia].
Qed.

End RegistryMore.

(** X4: a successful [initialize] repeated against an unchanged kernel
    answer succeeds again and changes nothing: no entry is duplicated or
    replaced and the pool is the same. *)
Theorem initialize_idempotent (k : Kernel) (d : DrmDevice.t) :
  (DrmDevice.initialize k d).1 = true ->
  DrmDevice.initialize k (DrmDevice.initialize k d).2
  = (true, (DrmDevice.initialize k d).2).
Proof.
  intros Hok.
  destruct (DrmDevice.initialize k d) as [ok d'] eqn:E. simpl in *.
  subst ok. apply initialize_true in E as (res & Hfd & Hres & ->).
  rewrite initialize_cases. simpl. rewrite Hres.
  destruct (DrmDevice.mFd d <? 0) eqn:E; [lia|].
  by rewrite create_displays_twice.
Qed.

(** Initialising the sample board twice. *)
Lemma initialize_idempotent_witness :
  DrmDevice.initialize kernel_panel
    (DrmDevice.initialize kernel_panel (DrmDevice.make 3)).2
  = (true, (DrmDevice.initialize kernel_panel (DrmDevice.make 3)).2).
Proof.
  apply (initialize_idempotent kernel_panel (DrmDevice.make 3)).
  reflexivity.
Defined.

(** X5: [initialize] does not reset the in-use mask.  After a successful
    (re-)initialisation every index below the mask width that was marked in
    use is still refused by [reserveCrtc], although the index now names an
    engine of the new pool; and if the new pool is too short to contain
    the index, [freeCrtc] cannot release it any more. *)
Theorem initialize_keeps_reservations (k : Kernel) (d : DrmDevice.t)
    (pipe : N) :
  (DrmDevice.initialize k d).1 = true ->
  Z.of_N pipe < 32 ->
  Z.testbit (DrmDevice.mUsedCrtcs d) (Z.of_N pipe) = true ->
  let d' := (DrmDevice.initialize k d).2 in
  DrmDevice.mUsedCrtcs d' = DrmDevice.mUsedCrtcs d
  /\ DrmDevice.reserveCrtc pipe d' = (0, d')
  /\ (Z.of_nat (List.length (DrmDevice.mCrtcs d')) <= Z.of_N pipe ->
      DrmDevice.freeCrtc pipe d' = d'
      /\ Z.testbit (DrmDevice.mUsedCrtcs (DrmDevice.freeCrtc pipe d'))
           (Z.of_N pipe) = true).
Proof.
  intros Hok Hp Hset d'.
  assert (Hmask : DrmDevice.mUsedCrtcs d' = DrmDevice.mUsedCrtcs d).
  { subst d'. destruct (DrmDevice.initialize k d) as [ok d''] eqn:E.
    simpl in *. subst ok.
    by apply initialize_true in E as (res & _ & _ & ->). }
  clearbody d'. split; [done|]. split.
  - apply reserveCrtc_taken; [done|]. by rewrite Hmask.
  - intros Hshort.
    assert (Hfree : DrmDevice.freeCrtc pipe d' = d').
    { unfold DrmDevice.freeCrtc.
      destruct (Z.of_N pipe <? _) eqn:E; [lia | done]. }
    rewrite Hfree, Hmask. done.
Qed.

(** Engine 2 of three is in use when the kernel comes back with a single
    engine. *)
Lemma initialize_keeps_reservations_witness :
  let k := {| drmModeGetResources := fun _ =>
                Some {| crtcs := [31]; connectors := [7] |};
              connector_connected := fun _ => false;
              connector_internal := fun _ => false |} in
  let d := (DrmDevice.reserveCrtc 2
              (DrmDevice.initialize kernel_panel (DrmDevice.make 3)).2).2 in
  let d' := (DrmDevice.initialize k d).2 in
  DrmDevice.mUsedCrtcs d' = 4
  /\ DrmDevice.reserveCrtc 2 d' = (0, d')
  /\ DrmDevice.freeCrtc 2 d' = d'.
Proof.
  intros k d d'.
  destruct (initialize_keeps_reservations k d 2) as (H1 & H2 & H3);
    [reflexivity | simpl; lia | reflexivity |].
  split; [etrans; [exact H1 | reflexivity] | split; [exact H2|]].
  destruct H3 as [H3 _]; [vm_compute; discriminate | exact H3].
Defined.

(** X6: provenance of registry keys.  In every state that calls reach
    from a newly constructed device, each key of the registry is a
    connector identifier that some [initialize] call of the sequence was
    handed by the kernel for the device's descriptor. *)
Theorem registry_keys_from_kernel (cs : list DrmDevice.call) (fd : Z)
    (key : Z) :
  key ∈ dom (DrmDevice.mDisplays (DrmDevice.run cs (DrmDevice.make fd))) ->
  exists k res,
    DrmDevice.CallInitialize k ∈ cs
    /\ drmModeGetResources k fd = Some res
    /\ key ∈ connectors res.
Proof.
  assert (H : forall d,
            is_Some (DrmDevice.mDisplays (DrmDevice.run cs d) !! key) ->
            is_Some (DrmDevice.mDisplays d !! key)
            \/ exists k res,
                 DrmDevice.CallInitialize k ∈ cs
                 /\ drmModeGetResources k (DrmDevice.mFd d) = Some res
                 /\ key ∈ connectors res).
  { induction cs as [|c cs IH]; intros d Hkey; [by left|].
    simpl in Hkey. destruct (IH _ Hkey) as [Hstep|(k & res & Hk & Hres & Hin)].
    - rewrite step_lookup in Hstep.
      destruct c; try (by left); try (left; by apply fmap_is_Some in Hstep).
      destruct (DrmDevice.mFd d <? 0); [by left|].
      destruct (drmModeGetResources k (DrmDevice.mFd d)) as [res|] eqn:Hres;
        [|by left].
      destruct (DrmDevice.mDisplays d !! key); [left; by eexists|].
      destruct (decide (key ∈ connectors res)) as [Hin|_];
        [|by destruct Hstep].
      right. exists k, res. split; [apply list_elem_of_here | done].
    - right. exists k, res. rewrite step_mFd in Hres.
      split; [by apply list_elem_of_further | done]. }
  intros Hkey. apply elem_of_dom in Hkey.
  destruct (H _ Hkey) as [Hempty|Hfound]; [|done].
  simpl in Hempty. rewrite lookup_empty in Hempty. by destruct Hempty.
Qed.

(** Connector 9 after initialisation, an update pass and an enable. *)
Lemma registry_keys_from_kernel_witness :
  exists k res,
    DrmDevice.CallInitialize k
      ∈ [DrmDevice.CallUpdate kernel_unplugged;
         DrmDevice.CallInitialize kernel_panel;
         DrmDevice.CallEnable kernel_monitors None]
    /\ drmModeGetResources k 3 = Some res
    /\ 9 ∈ connectors res.
Proof.
  apply (registry_keys_from_kernel
           [DrmDevice.CallUpdate kernel_unplugged;
            DrmDevice.CallInitialize kernel_panel;
            DrmDevice.CallEnable kernel_monitors None] 3 9).
  apply elem_of_dom. vm_compute. by eexists.
Defined.

(** X7: no call removes a registry entry or re-keys an entity, and the
    descriptor never changes: an entry present in some state is present
    under the same key, with the same identifier, after any further
    sequence of calls. *)
Theorem registry_entries_persist (cs : list DrmDevice.call)
    (d : DrmDevice.t) (key : Z) (x : DrmDisplay.t) :
  DrmDevice.mDisplays d !! key = Some x ->
  DrmDevice.mFd (DrmDevice.run cs d) = DrmDevice.mFd d
  /\ exists x',
       DrmDevice.mDisplays (DrmDevice.run cs d) !! key = Some x'
       /\ DrmDisplay.id x' = DrmDisplay.id x.
Proof.
  intros Hx. split; [apply run_mFd|].
  revert d x Hx. induction cs as [|c cs IH]; intros d x Hx; [by exists x|].
  simpl.
  assert (Hstep : exists x1,
            DrmDevice.mDisplays (DrmDevice.step c d) !! key = Some x1
            /\ DrmDisplay.id x1 = DrmDisplay.id x).
  { rewrite step_lookup, Hx.
    destruct c; try (by exists x); try (by eexists).
    destruct (DrmDevice.mFd d <? 0); [by exists x|].
    destruct (drmModeGetResources k (DrmDevice.mFd d)); by exists x. }
  destruct Hstep as (x1 & Hx1 & Hid1).
  destruct (IH _ _ Hx1) as (x' & Hx' & Hid'). exists x'.
  split; [done | congruence].
Qed.

(** Connector 12 of the sample board through an unplugging, a second
    initialisation and a reservation. *)
Lemma registry_entries_persist_witness :
  let d := (DrmDevice.initialize kernel_panel (DrmDevice.make 3)).2 in
  let cs := [DrmDevice.CallEnable kernel_unplugged None;
             DrmDevice.CallInitialize kernel_monitors;
             DrmDevice.CallReserveCrtc 1;
             DrmDevice.CallReportExternal] in
  DrmDevice.mFd (DrmDevice.run cs d) = 3
  /\ exists x',
       DrmDevice.mDisplays (DrmDevice.run cs d) !! 12 = Some x'
       /\ DrmDisplay.id x' = 12.
Proof.
  intros d cs.
  apply (registry_entries_persist cs d 12 (DrmDisplay.make 12)).
  reflexivity.
Defined.

(** X8: only [initialize] populates.  A sequence of calls without
    [initialize] leaves the key set of the registry and the pool as they
    were: refreshing ([update], also inside [enable]) never adds a
    connector, whatever the kernel reports. *)
Theorem registry_fixed_without_initialize (cs : list DrmDevice.call)
    (d : DrmDevice.t) :
  Forall (fun c => DrmDevice.is_initialize c = false) cs ->
  dom (DrmDevice.mDisplays (DrmDevice.run cs d))
  = dom (DrmDevice.mDisplays d)
  /\ DrmDevice.mCrtcs (DrmDevice.run cs d) = DrmDevice.mCrtcs d.
Proof.
  intros Hcs. revert d. induction Hcs as [|c cs Hc _ IH]; intros d; [done|].
  simpl. destruct (IH (DrmDevice.step c d)) as [-> ->].
  by apply step_keeps_keys.
Qed.

(** Hotplug passes and an enable on the initialised sample board. *)
Lemma registry_fixed_without_initialize_witness :
  let d := (DrmDevice.initialize kernel_panel (DrmDevice.make 3)).2 in
  let cs := [DrmDevice.CallUpdate kernel_monitors;
             DrmDevice.CallEnable kernel_panel (Some 1%positive);
             DrmDevice.CallUpdate kernel_unplugged;
             DrmDevice.CallReportExternal] in
  dom (DrmDevice.mDisplays (DrmDevice.run cs d))
  = dom (DrmDevice.mDisplays d)
  /\ DrmDevice.mCrtcs (DrmDevice.run cs d) = DrmDevice.mCrtcs d.
Proof.
  intros d cs. apply (registry_fixed_without_initialize cs d).
  repeat constructor.
Defined.

(** X9: a manager constructed on a path that fails to open stays
    unusable.  After any sequence of calls its registry and pool are empty,
    every [initialize] returns [false] without effect, every [reserveCrtc]
    returns 0 without effect, [getConnectedDisplay] returns [nullptr] and
    [enable] reports nothing. *)
Theorem failed_open_unusable (os : DrmDevice.Os) (path : string)
    (cs : list DrmDevice.call) :
  DrmDevice.open os path < 0 ->
  let d := DrmDevice.run cs (DrmDevice.make_path os path) in
  DrmDevice.mDisplays d = ∅
  /\ DrmDevice.mCrtcs d = []
  /\ (forall k, DrmDevice.initialize k d = (false, d))
  /\ (forall pipe, DrmDevice.reserveCrtc pipe d = (0, d))
  /\ (forall connector, (DrmDevice.getConnectedDisplay connector d).1 = None)
  /\ (forall k callback, (DrmDevice.enable k callback d).2 = []).
Proof.
  intros Hopen d.
  assert (Hfd : DrmDevice.mFd d < 0) by (subst d; by rewrite run_mFd).
  destruct (never_initialized_empty cs (DrmDevice.make_path os path))
    as [Hm Hp]; [by apply never_initializes | done | done |].
  fold d in Hm, Hp. clearbody d.
  split; [done|]. split; [done|]. split; [|split; [|split]].
  - intros k. rewrite initialize_cases.
    destruct (DrmDevice.mFd d <? 0) eqn:E; [done | lia].
  - intros pipe. apply reserveCrtc_outside. rewrite Hp. simpl. lia.
  - intros connector. unfold DrmDevice.getConnectedDisplay.
    by rewrite Hm, lookup_empty.
  - intros k callback. rewrite enable_cases. cbv zeta.
    unfold DrmDevice.update at 1 2 3. simpl.
    rewrite Hm, fmap_empty, map_to_list_empty. done.
Qed.

(** The default constructor when neither the property nor the default
    node can be opened. *)
Lemma failed_open_unusable_witness :
  let os := {| DrmDevice.open := fun _ => -1;
               DrmDevice.property := fun _ => EmptyString |} in
  let d := DrmDevice.run
             [DrmDevice.CallInitialize kernel_panel;
              DrmDevice.CallEnable kernel_panel (Some 1%positive)]
             (DrmDevice.make_default os) in
  DrmDevice.mDisplays d = ∅
  /\ DrmDevice.mCrtcs d = []
  /\ (forall k, DrmDevice.initialize k d = (false, d))
  /\ (forall pipe, DrmDevice.reserveCrtc pipe d = (0, d))
  /\ (forall connector, (DrmDevice.getConnectedDisplay connector d).1 = None)
  /\ (forall k callback, (DrmDevice.enable k callback d).2 = []).
Proof.
  intros os d.
  apply (failed_open_unusable os
           (DrmDevice.GetProperty os "hwc.drm.device" "/dev/dri/card0")
           [DrmDevice.CallInitialize kernel_panel;
            DrmDevice.CallEnable kernel_panel (Some 1%positive)]).
  simpl. lia.
Defined.

(** ** Further properties of the primary-display protocol *)

Section ProtocolMore.

Import DrmDevice.

Lemma find_if_cases {A} (p : A -> bool) i l :
  (find_if p i l = (i + List.length l)%nat /\ forall x, x ∈ l -> p x = false)
  \/ exists x, nth_error l (find_if p i l - i) = Some x /\ p x = true
               /\ (find_if p i l < i + List.length l)%nat.
Proof.
  destruct (List.existsb p l) eqn:E.
  - right. apply List.existsb_exists in E as (x & Hx & Hp).
    destruct (find_if_some p i l) as (y & Hy & Hpy & Hi).
    { exists x. split; [by apply list_elem_of_In | done]. }
    exists y. split; [done|]. split; [done | lia].
  - left. assert (Hall : forall x, x ∈ l -> p x = false).
    { intros x Hx. destruct (p x) eqn:Hp; [|done].
      rewrite <- E. symmetry. apply List.existsb_exists. exists x.
      split; [by apply list_elem_of_In | done]. }
    split; [by apply find_if_none | done].
Qed.

Lemma filter_nil_all {A} (p : A -> bool) l :
  List.filter p l = [] -> forall x, x ∈ l -> p x = false.
Proof.
  intros Hnil x Hx. destruct (p x) eqn:Hp; [|done].
  assert (Hin : List.In x (List.filter p l)).
  { apply List.filter_In. split; [by apply list_elem_of_In | done]. }
  rewrite Hnil in Hin. done.
Qed.

(** The two outcomes of [enable]: nothing is connected, nothing is
    reported and the marker is not written; or one connected entry of the
    refreshed registry is reported and becomes the marker, an internal one
    if there is any. *)
Lemma enable_outcome k callback d :
  let d1 := set_mCallback callback (update k d) in
  let l := map_to_list (mDisplays (update k d)) in
  (enable k callback d = (set_mHotplugThread true d1, [])
   /\ forall e, e ∈ l -> is_connected e = false)
  \/ exists key x,
       enable k callback d
       = (set_mHotplugThread true
            (set_mPrimaryDisplay (DrmDisplay.id x) d1), [x])
       /\ (key, x) ∈ l
       /\ DrmDisplay.connected x = true
       /\ ((exists e, e ∈ l /\ is_primary e = true) ->
           DrmDisplay.internal x = true).
Proof.
  intros d1 l. rewrite enable_cases. cbv zeta. fold l. fold d1.
  destruct (find_if_cases is_primary 0%nat l)
    as [[Hend Hnone]|([key x] & Hnth & Hp & Hlt)].
  - rewrite Hend. simpl. rewrite Nat.eqb_refl. simpl.
    rewrite first_connected_at_end by (simpl; lia).
    destruct (List.filter is_connected l) as [|[key x] rest] eqn:Hf.
    + left. split; [done|]. by apply filter_nil_all.
    + right. exists key, x. split; [done|].
      assert (Hin : (key, x) ∈ List.filter is_connected l).
      { rewrite Hf. apply list_elem_of_here. }
      apply elem_of_filter_connected in Hin as [Hin Hc].
      split; [done|]. split; [done|].
      intros (e & He & Hpe). by rewrite Hnone in Hpe.
  - right. exists key, x. rewrite Nat.sub_0_r in Hnth. rewrite Hnth.
    destruct (Nat.eqb_spec (find_if is_primary 0%nat l) (List.length l))
      as [?|_]; [lia|]. simpl.
    unfold is_primary in Hp. simpl in Hp.
    apply andb_true_iff in Hp as [Hc Hi].
    split; [done|]. split; [|done].
    apply list_elem_of_In. by apply nth_error_In in Hnth.
Qed.

(** The deferred loop as a filter of the iteration order. *)
Lemma report_others_filter primary l :
  report_others primary l
  = (List.filter
       (fun e => negb (DrmDisplay.id e.2 =? primary) && is_connected e) l).*2.
Proof.
  induction l as [|[key x] l IH]; simpl; [done|].
  unfold is_connected at 1. simpl.
  destruct (negb _ && _); simpl; by rewrite IH.
Qed.

(** When no entry carries the marker, the deferred loop reports every
    connected entry. *)
Lemma report_others_absent primary (l : list (Z * DrmDisplay.t)) :
  (forall e, e ∈ l -> DrmDisplay.id e.2 <> primary) ->
  report_others primary l = (List.filter is_connected l).*2.
Proof.
  induction l as [|[key x] l IH]; intros Hall; simpl; [done|].
  unfold is_connected at 1. simpl.
  assert (Hx : (DrmDisplay.id x =? primary) = false).
  { apply Z.eqb_neq. apply (Hall (key, x)). apply list_elem_of_here. }
  rewrite Hx. simpl.
  rewrite IH by (intros e He; apply Hall; by apply list_elem_of_further).
  by destruct (DrmDisplay.connected x).
Qed.

(** The entity reported first and the entities reported later are the
    connected entities, each once. *)
Lemma report_others_cover key x (l : list (Z * DrmDisplay.t)) :
  NoDup (l.*1) ->
  (forall e, e ∈ l -> DrmDisplay.id e.2 = e.1) ->
  (key, x) ∈ l -> DrmDisplay.connected x = true ->
  Permutation (x :: report_others key l) (List.filter is_connected l).*2.
Proof.
  induction l as [|[k0 y0] l IH]; intros Hnd Hwf Hin Hc;
    [by inversion Hin|].
  simpl in Hnd. apply NoDup_cons in Hnd as [Hk0 Hnd].
  assert (Hwf' : forall e, e ∈ l -> DrmDisplay.id e.2 = e.1).
  { intros e He. apply Hwf. by apply list_elem_of_further. }
  assert (Hid0 : DrmDisplay.id y0 = k0).
  { apply (Hwf (k0, y0)). apply list_elem_of_here. }
  simpl. unfold is_connected at 1. simpl.
  apply elem_of_cons in Hin as [[= <- <-]|Hin].
  - rewrite Hid0, Z.eqb_refl, Hc. simpl.
    rewrite report_others_absent; [done|].
    intros [k1 y1] He. rewrite (Hwf' _ He). simpl. intros ->.
    apply Hk0. apply list_elem_of_fmap. by exists (key, y1).
  - assert (Hne : (DrmDisplay.id y0 =? key) = false).
    { apply Z.eqb_neq. rewrite Hid0. intros ->. apply Hk0.
      apply list_elem_of_fmap. by exists (key, x). }
    rewrite Hne. simpl. destruct (DrmDisplay.connected y0); simpl.
    + etrans; [apply perm_swap|]. apply perm_skip. by apply IH.
    + by apply IH.
Qed.

End ProtocolMore.

(** X10: [enable] stores the callback, starts the monitor, touches the
    registry only through its update pass, and makes at most one report:
    either no registered output is connected, nothing is reported and the
    primary marker is left as it was; or exactly one entity is reported,
    the marker becomes its identifier, and that entity is one that
    [getConnectedDisplay] returns for its connector afterwards. *)
Theorem enable_reports_at_most_one (k : Kernel)
    (callback : option DrmDevice.DrmCallback) (d : DrmDevice.t) :
  let r := DrmDevice.enable k callback d in
  let m := DrmDevice.mDisplays (DrmDevice.update k d) in
  DrmDevice.mDisplays r.1 = m
  /\ DrmDevice.mCallback r.1 = callback
  /\ DrmDevice.mHotplugThread r.1 = true
  /\ ((r.2 = []
       /\ DrmDevice.mPrimaryDisplay r.1 = DrmDevice.mPrimaryDisplay d
       /\ forall key x, m !! key = Some x -> DrmDisplay.connected x = false)
      \/ exists key x,
           r.2 = [x]
           /\ DrmDevice.mPrimaryDisplay r.1 = DrmDisplay.id x
           /\ (DrmDevice.getConnectedDisplay key r.1).1 = Some x).
Proof.
  intros r m.
  destruct (enable_frame k callback d) as (Hm & _ & _ & _ & Hcb & Hth).
  split; [done|]. split; [done|]. split; [done|].
  destruct (enable_outcome k callback d)
    as [[E Hnone]|(key & x & E & Hin & Hc & _)]; subst r; rewrite E.
  - left. split; [done|]. split; [done|]. intros key x Hx.
    apply elem_of_map_to_list in Hx. by apply (Hnone (key, x)).
  - right. exists key, x. split; [done|]. split; [done|].
    apply elem_of_map_to_list in Hin.
    unfold DrmDevice.getConnectedDisplay. simpl in *.
    rewrite Hin. simpl. by rewrite Hc.
Qed.

(** X11: preference for the internal panel.  Whenever some registered
    output is connected and internal after the update pass, the one entity
    that [enable] reports is connected and internal, also when an external
    output comes earlier in the iteration order. *)
Theorem enable_prefers_internal (k : Kernel)
    (callback : option DrmDevice.DrmCallback) (d : DrmDevice.t)
    (key : Z) (A : DrmDisplay.t) :
  let m := DrmDevice.mDisplays (DrmDevice.update k d) in
  m !! key = Some A ->
  DrmDisplay.connected A = true -> DrmDisplay.internal A = true ->
  exists key' x,
    (DrmDevice.enable k callback d).2 = [x]
    /\ m !! key' = Some x
    /\ DrmDisplay.connected x = true
    /\ DrmDisplay.internal x = true
    /\ DrmDevice.mPrimaryDisplay (DrmDevice.enable k callback d).1
       = DrmDisplay.id x.
Proof.
  intros m HA Hc Hi.
  assert (Hex : exists e, e ∈ map_to_list m /\ is_primary e = true).
  { exists (key, A). split; [by apply elem_of_map_to_list|].
    unfold is_primary. simpl. by rewrite Hc, Hi. }
  destruct (enable_outcome k callback d)
    as [[_ Hnone]|(key' & x & E & Hin & Hcx & Hint)].
  - destruct Hex as (e & He & Hp). unfold is_primary in Hp.
    apply andb_true_iff in Hp as [Hp _].
    specialize (Hnone e He). unfold is_connected in Hnone. congruence.
  - exists key', x. rewrite E. split; [done|].
    split; [by apply elem_of_map_to_list|]. split; [done|].
    split; [by apply Hint | done].
Qed.

(** A registry whose first connected output in iteration order is the
    monitor on connector 7 and whose panel sits on connector 12. *)
Lemma enable_prefers_internal_witness :
  let k := {| drmModeGetResources := drmModeGetResources kernel_panel;
              connector_connected := fun c => (c =? 7) || (c =? 12);
              connector_internal := fun c => c =? 12 |} in
  let d := (DrmDevice.initialize k (DrmDevice.make 3)).2 in
  exists key' x,
    (DrmDevice.enable k None d).2 = [x]
    /\ DrmDevice.mDisplays (DrmDevice.update k d) !! key' = Some x
    /\ DrmDisplay.connected x = true
    /\ DrmDisplay.internal x = true
    /\ DrmDevice.mPrimaryDisplay (DrmDevice.enable k None d).1
       = DrmDisplay.id x.
Proof.
  intros k d.
  apply (enable_prefers_internal k None d 12
           {| DrmDisplay.id := 12; DrmDisplay.connected := true;
              DrmDisplay.internal := true |});
    reflexivity.
Defined.

(** X12: with a primary designated, [reportExternal] reports exactly the
    registered entities that are connected and whose identifier differs
    from the marker, changes nothing but the marker, which it clears, and
    a second call right after it reports nothing and changes nothing. *)
Theorem reportExternal_contract (d : DrmDevice.t) :
  DrmDevice.mPrimaryDisplay d <> 0 ->
  let r := DrmDevice.reportExternal d in
  r.1 = DrmDevice.set_mPrimaryDisplay 0 d
  /\ (forall x,
        x ∈ r.2
        <-> exists key,
              DrmDevice.mDisplays d !! key = Some x
              /\ DrmDisplay.connected x = true
              /\ DrmDisplay.id x <> DrmDevice.mPrimaryDisplay d)
  /\ DrmDevice.reportExternal r.1 = (r.1, []).
Proof.
  intros Hp r.
  assert (E : r = (DrmDevice.set_mPrimaryDisplay 0 d,
                   DrmDevice.report_others (DrmDevice.mPrimaryDisplay d)
                     (map_to_list (DrmDevice.mDisplays d)))).
  { subst r. unfold DrmDevice.reportExternal.
    by destruct (Z.eqb_spec (DrmDevice.mPrimaryDisplay d) 0). }
  rewrite E. clear E r. simpl. split; [done|]. split; [|done].
  intros x. rewrite report_others_filter. split.
  - intros Hx. apply list_elem_of_fmap in Hx as ([key y] & -> & Hy).
    apply list_elem_of_In in Hy. apply List.filter_In in Hy as [Hy Hf].
    apply list_elem_of_In, elem_of_map_to_list in Hy.
    apply andb_true_iff in Hf as [Hid Hc]. simpl in *.
    exists key. split; [done|]. split; [done|].
    apply negb_true_iff, Z.eqb_neq in Hid. done.
  - intros (key & Hx & Hc & Hid).
    apply list_elem_of_fmap. exists (key, x). split; [done|].
    apply list_elem_of_In. apply List.filter_In. split.
    + by apply list_elem_of_In, elem_of_map_to_list.
    + apply andb_true_iff. split; [|done].
      by apply negb_true_iff, Z.eqb_neq.
Qed.

(** The sample board after an [enable] that reported the panel. *)
Lemma reportExternal_contract_witness :
  let d := (DrmDevice.enable kernel_panel None
              (DrmDevice.initialize kernel_panel (DrmDevice.make 3)).2).1 in
  (DrmDevice.reportExternal d).1 = DrmDevice.set_mPrimaryDisplay 0 d
  /\ DrmDevice.reportExternal (DrmDevice.reportExternal d).1
     = ((DrmDevice.reportExternal d).1, []).
Proof.
  intros d.
  destruct (reportExternal_contract d) as (H1 & _ & H3);
    [vm_compute; discriminate | done].
Defined.

(** X13: the two phases together announce every connected output exactly
    once.  In a registry that keeps each entity under its own identifier
    and has no connected output under the identifier 0, the reports of
    [enable] followed by those of [reportExternal] are a permutation of
    the connected entities of the refreshed registry, and the marker is 0
    afterwards. *)
Theorem two_phase_reports_all (k : Kernel)
    (callback : option DrmDevice.DrmCallback) (d : DrmDevice.t) :
  let m := DrmDevice.mDisplays (DrmDevice.update k d) in
  registry_wf (DrmDevice.mDisplays d) ->
  (forall x, m !! 0 = Some x -> DrmDisplay.connected x = false) ->
  let r1 := DrmDevice.enable k callback d in
  let r2 := DrmDevice.reportExternal r1.1 in
  Permutation (r1.2 ++ r2.2)
    (List.filter is_connected (map_to_list m)).*2
  /\ DrmDevice.mPrimaryDisplay r2.1 = 0.
Proof.
  intros m Hwf Hzero r1 r2.
  assert (Hwf' : registry_wf m) by by apply registry_wf_update.
  unfold registry_wf in Hwf'. rewrite map_Forall_lookup in Hwf'.
  set (l := map_to_list m).
  assert (Hmarker : DrmDevice.mPrimaryDisplay r2.1 = 0).
  { subst r2. unfold DrmDevice.reportExternal.
    by destruct (Z.eqb_spec (DrmDevice.mPrimaryDisplay r1.1) 0). }
  split; [|done].
  assert (Hreg : map_to_list (DrmDevice.mDisplays r1.1) = l).
  { subst r1. by destruct (enable_frame k callback d) as (-> & _). }
  destruct (enable_outcome k callback d)
    as [[E Hnone]|(key & x & E & Hin & Hc & _)]; fold m in Hnone || fold m in Hin.
  - assert (Hl : List.filter is_connected l = []) by by apply filter_none.
    assert (Hr2 : r2.2 = []).
    { subst r2. unfold DrmDevice.reportExternal.
      destruct (_ =? 0); [done|]. simpl.
      by rewrite Hreg, report_others_connected, Hl. }
    subst r1. rewrite E in *. simpl. by rewrite Hr2, Hl.
  - fold l in Hin.
    assert (Hkey : DrmDisplay.id x = key).
    { apply Hwf'. by apply elem_of_map_to_list. }
    assert (Hnz : key <> 0).
    { intros ->. apply elem_of_map_to_list in Hin.
      specialize (Hzero x Hin). congruence. }
    assert (Hr2 : r2.2 = DrmDevice.report_others key l).
    { subst r2. unfold DrmDevice.reportExternal. rewrite Hreg.
      subst r1. rewrite E. simpl. rewrite Hkey.
      by destruct (Z.eqb_spec key 0). }
    subst r1. rewrite E in *. simpl. rewrite Hr2.
    apply report_others_cover; try done.
    + apply NoDup_fst_map_to_list.
    + intros [k1 y1] He. simpl. apply Hwf'. by apply elem_of_map_to_list.
Qed.

(** The sample board with a panel and a monitor. *)
Lemma two_phase_reports_all_witness :
  let d := (DrmDevice.initialize kernel_panel (DrmDevice.make 3)).2 in
  let r1 := DrmDevice.enable kernel_panel None d in
  let r2 := DrmDevice.reportExternal r1.1 in
  Permutation (r1.2 ++ r2.2)
    (List.filter is_connected
       (map_to_list (DrmDevice.mDisplays (DrmDevice.update kernel_panel d)))).*2
  /\ DrmDevice.mPrimaryDisplay r2.1 = 0.
Proof.
  intros d.
  apply (two_phase_reports_all kernel_panel None d).
  - apply (registry_wf_run [DrmDevice.CallInitialize kernel_panel] 3).
  - intros x H. vm_compute in H. discriminate.
Defined.

(** X14: [disable] stops the monitor, clears the callback and calls
    [disable()] on every registered entity once, connected or not; it
    neither changes the registry nor clears the primary marker, and a
    second call makes the same calls again. *)
Theorem disable_contract (d : DrmDevice.t) :
  let r := DrmDevice.disable d in
  DrmDevice.mHotplugThread r.1 = false
  /\ DrmDevice.mCallback r.1 = None
  /\ DrmDevice.mDisplays r.1 = DrmDevice.mDisplays d
  /\ DrmDevice.mPrimaryDisplay r.1 = DrmDevice.mPrimaryDisplay d
  /\ (forall key x, DrmDevice.mDisplays d !! key = Some x -> x ∈ r.2)
  /\ List.length r.2 = size (DrmDevice.mDisplays d)
  /\ DrmDevice.disable r.1 = r.
Proof.
  intros r. subst r. unfold DrmDevice.disable. simpl.
  repeat (split; [done|]). split; [|split; [|done]].
  - intros key x Hx. apply list_elem_of_fmap. exists (key, x).
    split; [done | by apply elem_of_map_to_list].
  - by rewrite length_fmap, length_map_to_list.
Qed.
